(** * THC - Timed HTTP Client: a shallow embedding of thc.go and metrics.go

    The client is modelled sequentially: a [World] holds the THC value, the
    process-wide expvar registry, the clock, the pending cooldown goroutines
    (as their wake-up deadlines) and the number of calls made to the
    underlying http.Client.  What http.Client.Do does for a request (how long
    it takes, which httptrace hooks it fires and what it returns) is an
    input of [Do]. *)

From Stdlib Require Import ZArith List String Bool Lia.
Import ListNotations.
Open Scope Z_scope.

(** ** Go runtime pieces *)

(** int32 arithmetic as sync/atomic.AddInt32 does it: wrap-around. *)
Definition int32_max : Z := 2 ^ 31 - 1.
Definition wrap32 (z : Z) : Z := (z + 2 ^ 31) mod 2 ^ 32 - 2 ^ 31.
Definition AddInt32 (x delta : Z) : Z := wrap32 (x + delta).

(** time.Time as nanoseconds since the Unix epoch; the zero time.Time is
    January 1st of year 1.  time.Duration is an int64 number of nanoseconds
    and Time.Sub saturates to the int64 range. *)
Definition Time := Z.
Definition Duration := Z.
Definition zero_time : Time := -62135596800 * 1000000000.
Definition minDuration : Duration := - 2 ^ 63.
Definition maxDuration : Duration := 2 ^ 63 - 1.
Definition Sub (t u : Time) : Duration :=
  Z.max minDuration (Z.min maxDuration (t - u)).
Definition Nanoseconds (d : Duration) : Z := d.

Definition Millisecond : Duration := 1000000.
Definition Second : Duration := 1000 * Millisecond.
Definition defaultHealingTime : Duration := 10 * Second.

(** Option monad: [None] is a Go panic (nil dereference, or expvar refusing
    a name that is already published). *)
Definition obind {A B} (m : option A) (k : A -> option B) : option B :=
  match m with Some a => k a | None => None end.
Notation "x <- m ;; k" := (obind m (fun x => k))
  (at level 61, m at next level, right associativity).

(** ratecounter.AvgRateCounter and ratecounter.RateCounter: the samples
    handed to Incr, in order.  The sliding window only affects the reported
    averages and rates, which no statement below reads. *)
Definition AvgRateCounter := list Z.
Definition RateCounter := list Z.
Definition NewCounter : list Z := [].
Definition Incr (rc : list Z) (val : Z) : list Z := rc ++ [val].

(** expvar.Publish: the registry is process-wide; publishing a name twice
    makes expvar call log.Panicln. *)
Definition Publish (name : string) (reg : list string) : option (list string) :=
  if existsb (String.eqb name) reg then None else Some (reg ++ [name]).

(** ** metrics.go *)

Record Metrics := mkMetrics {
  DNSLookup : AvgRateCounter;
  TCPConnection : AvgRateCounter;
  TLSHandshake : AvgRateCounter;
  GetConnection : AvgRateCounter;
  WriteRequest : AvgRateCounter;
  GetResponse : AvgRateCounter;
  OutOfService : RateCounter
}.

(** httptrace.ClientTrace hooks installed by withTracing. *)
Inductive HookEvent :=
| GetConn | DNSStart | DNSDone | ConnectStart | ConnectDone
| TLSHandshakeStart | TLSHandshakeDone | GotConn | WroteRequest
| GotFirstResponseByte.

(** The local variables captured by the closures of withTracing. *)
Record TraceVars := mkTraceVars {
  t0 : Time; dnsStart : Time; tcpStart : Time; tlsStart : Time
}.

Definition trace_init : TraceVars :=
  mkTraceVars zero_time zero_time zero_time zero_time.

(** One hook firing at time [tnow]. *)
Definition hook (tv : TraceVars) (m : Metrics) (tnow : Time) (ev : HookEvent)
  : TraceVars * Metrics :=
  let '(mkTraceVars a d tc tl) := tv in
  let '(mkMetrics dns tcp tls gc wr gr oos) := m in
  match ev with
  | GetConn => (mkTraceVars tnow d tc tl, m)
  | DNSStart => (mkTraceVars a tnow tc tl, m)
  | DNSDone =>
      (tv, mkMetrics (Incr dns (Nanoseconds (Sub tnow d))) tcp tls gc wr gr oos)
  | ConnectStart => (mkTraceVars a d tnow tl, m)
  | ConnectDone =>
      (tv, mkMetrics dns (Incr tcp (Nanoseconds (Sub tnow tc))) tls gc wr gr oos)
  | TLSHandshakeStart => (mkTraceVars a d tc tnow, m)
  | TLSHandshakeDone =>
      (tv, mkMetrics dns tcp (Incr tls (Nanoseconds (Sub tnow tl))) gc wr gr oos)
  | GotConn =>
      (tv, mkMetrics dns tcp tls (Incr gc (Nanoseconds (Sub tnow a))) wr gr oos)
  | WroteRequest =>
      (tv, mkMetrics dns tcp tls gc (Incr wr (Nanoseconds (Sub tnow a))) gr oos)
  | GotFirstResponseByte =>
      (tv, mkMetrics dns tcp tls gc wr (Incr gr (Nanoseconds (Sub tnow a))) oos)
  end.

Fixpoint run_hooks (tv : TraceVars) (m : Metrics) (evs : list (Time * HookEvent))
  : TraceVars * Metrics :=
  match evs with
  | [] => (tv, m)
  | (t, ev) :: rest => let '(tv', m') := hook tv m t ev in run_hooks tv' m' rest
  end.

(** ** thc.go *)

Inductive HttpClient := DefaultClient | CustomClient (id : nat).

Record THC := mkTHC {
  Client : option HttpClient;
  Name : string;
  MaxErrors : Z;
  HealingTime : Duration;
  errorCounter : Z;
  (** the unexported [metrics] field: its seven pointers are only ever
      written together, by PublishExpvar, so they are nil together *)
  metrics : option Metrics
}.

Definition set_Client (c : THC) x :=
  mkTHC x (Name c) (MaxErrors c) (HealingTime c) (errorCounter c) (metrics c).
Definition set_HealingTime (c : THC) x :=
  mkTHC (Client c) (Name c) (MaxErrors c) x (errorCounter c) (metrics c).
Definition set_errorCounter (c : THC) x :=
  mkTHC (Client c) (Name c) (MaxErrors c) (HealingTime c) x (metrics c).
Definition set_metrics (c : THC) x :=
  mkTHC (Client c) (Name c) (MaxErrors c) (HealingTime c) (errorCounter c) x.

Definition new_metrics : Metrics :=
  mkMetrics NewCounter NewCounter NewCounter NewCounter NewCounter NewCounter
    NewCounter.

Definition PublishExpvar (c : THC) (reg : list string) : option (THC * list string) :=
  let n := if String.eqb (Name c) "" then "thc"%string else Name c in
  r1 <- Publish (n ++ "-dns-lookup") reg ;;
  r2 <- Publish (n ++ "-tcp-connection") r1 ;;
  r3 <- Publish (n ++ "-tls-handshake") r2 ;;
  r4 <- Publish (n ++ "-get-connection") r3 ;;
  r5 <- Publish (n ++ "-write-request") r4 ;;
  r6 <- Publish (n ++ "-get-response") r5 ;;
  r7 <- Publish (n ++ "-outofservice") r6 ;;
  Some (set_metrics c (Some new_metrics), r7).

Record Response := mkResponse { StatusCode : Z }.

(** Errors returned by the underlying http.Client, told apart by a code. *)
Definition TransportError := nat.

Inductive error := ErrOutOfService | ErrTransport (e : TransportError).

(** What http.Client.Do returns. *)
Record Outcome := mkOutcome { res : option Response; err : option TransportError }.

(** What http.Client.Do does with one request: how long it takes, which
    hooks fire (offsets from the start of the call), and what it returns. *)
Record ClientCall := mkClientCall {
  dur : Duration;
  hooks : list (Duration * HookEvent);
  outcome : Outcome
}.

Record World := mkWorld {
  thc : THC;
  expvars : list string;
  now : Time;
  (** wake-up times of the goroutines sleeping before resetting the
      error counter *)
  timers : list Time;
  (** number of calls made to the underlying http.Client *)
  calls : nat
}.

Definition set_thc (w : World) c :=
  mkWorld c (expvars w) (now w) (timers w) (calls w).

(** Time passes: every goroutine whose sleep is over runs
    atomic.StoreInt32(&c.errorCounter, 0).  The clock never goes back: a
    negative time.Sleep returns at once. *)
Definition advance (d : Duration) (w : World) : World :=
  let t := now w + Z.max 0 d in
  mkWorld
    (if existsb (fun dl => dl <=? t) (timers w)
     then set_errorCounter (thc w) 0 else thc w)
    (expvars w) t (filter (fun dl => negb (dl <=? t)) (timers w)) (calls w).

(** [err != nil || res.StatusCode >= 500], with Go's short circuit:
    the status is read only when there is no error, and reading it on a
    nil response panics. *)
Definition is_failure (o : Outcome) : option bool :=
  match err o with
  | Some _ => Some true
  | None =>
      match res o with
      | Some r => Some (500 <=? StatusCode r)
      | None => None
      end
  end.

(** [c.MaxErrors > 0 && atomic.LoadInt32(&c.errorCounter) >= c.MaxErrors] *)
Definition breaker_open (c : THC) : bool :=
  (0 <? MaxErrors c) && (MaxErrors c <=? errorCounter c).

(** The "Set defaults." block of Do. *)
Definition set_defaults (c : THC) (reg : list string) : option (THC * list string) :=
  let c := match Client c with
           | None => set_Client c (Some DefaultClient)
           | Some _ => c
           end in
  let c := if HealingTime c =? 0 then set_HealingTime c defaultHealingTime else c in
  match metrics c with
  | None => PublishExpvar c reg (* User forgot to call PublishExpvar() *)
  | Some _ => Some (c, reg)
  end.

(** [req.WithContext(withTracing(...))] then [c.Client.Do(req)]: the hooks
    fire on the metrics of [c], and the call takes [dur call]. *)
Definition client_do (w : World) (c : THC) (reg : list string) (call : ClientCall)
  : option World :=
  match metrics c with
  | None => None
  | Some m =>
      let evs := map (fun '(off, ev) => (now w + off, ev)) (hooks call) in
      let m' := snd (run_hooks trace_init m evs) in
      Some (advance (dur call)
              (mkWorld (set_metrics c (Some m')) reg (now w) (timers w)
                 (S (calls w))))
  end.

(** The [if c.MaxErrors > 0 { ... }] block of Do, run after the call. *)
Definition breaker_update (w1 : World) (o : Outcome) : option World :=
  let c1 := thc w1 in
  if 0 <? MaxErrors c1 then
    b <- is_failure o ;;
    if b then
      (* Become out of service if we have reached MaxErrors *)
      let n := AddInt32 (errorCounter c1) 1 in
      let c2 := set_errorCounter c1 n in
      if n =? MaxErrors c2 then
        match metrics c2 with
        | None => None
        | Some m2 =>
            let m3 := mkMetrics (DNSLookup m2) (TCPConnection m2)
                        (TLSHandshake m2) (GetConnection m2) (WriteRequest m2)
                        (GetResponse m2) (Incr (OutOfService m2) 1) in
            let c3 := set_metrics c2 (Some m3) in
            (* Restore the service after some time. *)
            Some (mkWorld c3 (expvars w1) (now w1)
                    (timers w1 ++ [now w1 + HealingTime c3]) (calls w1))
        end
      else Some (set_thc w1 c2)
    else
      (* No error. Reset the counter to zero. *)
      Some (set_thc w1 (set_errorCounter c1 0))
  else Some w1.

(** [return res, err]: what http.Client.Do gave back. *)
Definition returned (o : Outcome) : option Response * option error :=
  (res o, option_map ErrTransport (err o)).

Definition Do (w : World) (call : ClientCall)
  : option (World * (option Response * option error)) :=
  if breaker_open (thc w) then Some (w, (None, Some ErrOutOfService)) else
  p <- set_defaults (thc w) (expvars w) ;;
  let '(c, reg) := p in
  w1 <- client_do w c reg call ;;
  let o := outcome call in
  w2 <- breaker_update w1 o ;;
  Some (w2, returned o).

(** A sequence of requests and pauses. *)
Inductive Op := ODo (call : ClientCall) | OSleep (d : Duration).

Fixpoint run_ops (w : World) (ops : list Op)
  : option (World * list (option Response * option error)) :=
  match ops with
  | [] => Some (w, [])
  | ODo call :: rest =>
      p <- Do w call ;;
      let '(w', r) := p in
      q <- run_ops w' rest ;;
      let '(w'', rs) := q in
      Some (w'', r :: rs)
  | OSleep d :: rest => run_ops (advance d w) rest (* time.Sleep(d) *)
  end.

(** ** The test scenario of thc_test.go (TestCircuitBreaker) *)

Definition test_client : THC :=
  mkTHC None "test" 2 (100 * Millisecond) 0 None.
Definition test_world : World := mkWorld test_client [] 0 [] 0.
Definition resp500 : Outcome := mkOutcome (Some (mkResponse 500)) None.
Definition get500 : ClientCall := mkClientCall Millisecond [] resp500.

Definition test_scenario :=
  run_ops test_world
    [ODo get500; ODo get500; ODo get500; OSleep (101 * Millisecond); ODo get500].

(** ** Facts about the blocks of Do *)

(** Samples recorded so far by the out-of-service counter (none before
    setup). *)
Definition oos (c : THC) : list Z :=
  match metrics c with Some m => OutOfService m | None => [] end.

Lemma advance_thc_fields d w :
  MaxErrors (thc (advance d w)) = MaxErrors (thc w) /\
  HealingTime (thc (advance d w)) = HealingTime (thc w) /\
  metrics (thc (advance d w)) = metrics (thc w) /\
  errorCounter (thc (advance d w)) =
    (if existsb (fun dl => dl <=? now w + Z.max 0 d) (timers w) then 0
     else errorCounter (thc w)).
Proof.
  unfold advance; simpl.
  destruct (existsb _ _); simpl; repeat split; reflexivity.
Qed.

Lemma advance_world_fields d w :
  expvars (advance d w) = expvars w /\ calls (advance d w) = calls w /\
  now (advance d w) = now w + Z.max 0 d /\
  timers (advance d w) = filter (fun dl => negb (dl <=? now w + Z.max 0 d)) (timers w).
Proof. repeat split. Qed.

Lemma PublishExpvar_metrics c reg c' reg' :
  PublishExpvar c reg = Some (c', reg') -> c' = set_metrics c (Some new_metrics).
Proof.
  unfold PublishExpvar, obind.
  repeat match goal with
         | |- context [Publish ?n ?r] => destruct (Publish n r); [|discriminate]
         end.
  intros H; inversion H; reflexivity.
Qed.

Lemma set_defaults_spec c reg c' reg' :
  set_defaults c reg = Some (c', reg') ->
  MaxErrors c' = MaxErrors c /\ errorCounter c' = errorCounter c /\
  metrics c' <> None /\ oos c' = oos c /\
  HealingTime c' <> 0 /\ (HealingTime c <> 0 -> HealingTime c' = HealingTime c) /\
  (metrics c <> None -> reg' = reg /\ metrics c' = metrics c).
Proof.
  destruct c as [cl nm mx ht ec [m|]]; unfold set_defaults; simpl;
    destruct cl; simpl; destruct (Z.eqb_spec ht 0) as [Hh|Hh]; simpl;
    try (intros H; inversion H; subst; simpl;
         repeat split; try discriminate; try congruence; fail);
    intros H; apply PublishExpvar_metrics in H; inversion H; subst; simpl;
    repeat split; try discriminate; try congruence; unfold defaultHealingTime;
    try lia.
Qed.

Lemma hook_OutOfService tv m t ev :
  OutOfService (snd (hook tv m t ev)) = OutOfService m.
Proof. destruct tv, m, ev; reflexivity. Qed.

Lemma run_hooks_OutOfService evs : forall tv m,
  OutOfService (snd (run_hooks tv m evs)) = OutOfService m.
Proof.
  induction evs as [|[t ev] evs IH]; intros tv m; simpl; [reflexivity|].
  destruct (hook tv m t ev) as [tv' m'] eqn:E.
  rewrite IH. pose proof (hook_OutOfService tv m t ev) as Ho.
  rewrite E in Ho. exact Ho.
Qed.

Lemma client_do_spec w c reg call w1 :
  client_do w c reg call = Some w1 ->
  MaxErrors (thc w1) = MaxErrors c /\ HealingTime (thc w1) = HealingTime c /\
  metrics (thc w1) <> None /\ oos (thc w1) = oos c /\
  calls w1 = S (calls w) /\ expvars w1 = reg /\
  now w1 = now w + Z.max 0 (dur call) /\
  timers w1 = filter (fun dl => negb (dl <=? now w + Z.max 0 (dur call))) (timers w) /\
  errorCounter (thc w1) =
    (if existsb (fun dl => dl <=? now w + Z.max 0 (dur call)) (timers w) then 0
     else errorCounter c).
Proof.
  unfold client_do. destruct (metrics c) as [m|] eqn:Em; [|discriminate].
  intros H; inversion H; subst; clear H.
  unfold advance, oos; simpl.
  destruct (existsb _ _); simpl; rewrite ?Em, ?run_hooks_OutOfService;
    repeat split; try discriminate; reflexivity.
Qed.

Lemma breaker_update_spec w1 o w2 :
  breaker_update w1 o = Some w2 ->
  MaxErrors (thc w2) = MaxErrors (thc w1) /\
  HealingTime (thc w2) = HealingTime (thc w1) /\
  calls w2 = calls w1 /\ now w2 = now w1 /\ expvars w2 = expvars w1 /\
  (metrics (thc w1) <> None -> metrics (thc w2) <> None) /\
  (MaxErrors (thc w1) <= 0 -> w2 = w1) /\
  (0 < MaxErrors (thc w1) ->
     (is_failure o = Some true /\
      errorCounter (thc w2) = AddInt32 (errorCounter (thc w1)) 1 /\
      (AddInt32 (errorCounter (thc w1)) 1 <> MaxErrors (thc w1) ->
         timers w2 = timers w1 /\ oos (thc w2) = oos (thc w1)) /\
      (AddInt32 (errorCounter (thc w1)) 1 = MaxErrors (thc w1) ->
         timers w2 = timers w1 ++ [now w1 + HealingTime (thc w1)] /\
         oos (thc w2) = oos (thc w1) ++ [1])) \/
     (is_failure o = Some false /\ errorCounter (thc w2) = 0 /\
      timers w2 = timers w1 /\ oos (thc w2) = oos (thc w1))).
Proof.
  destruct w1 as [[cl nm mx ht ec ms] reg tn tms cs].
  unfold breaker_update, oos; simpl.
  destruct (Z.ltb_spec 0 mx) as [Hmx|Hmx].
  - destruct (is_failure o) as [[|]|] eqn:Ef; simpl; [| |discriminate].
    + destruct (Z.eqb_spec (AddInt32 ec 1) mx) as [Heq|Hne].
      * destruct ms as [m2|]; [|discriminate].
        intros H; inversion H; subst; clear H; simpl.
        repeat split; try discriminate; try lia;
          try (intros _; left; repeat split; congruence).
      * intros H; inversion H; subst; clear H; simpl.
        repeat split; try discriminate; try lia; try tauto;
          try (intros _; left; repeat split; congruence).
    + intros H; inversion H; subst; clear H; simpl.
      repeat split; try discriminate; try lia; try tauto;
        try (intros _; right; repeat split).
  - intros H; inversion H; subst; clear H; simpl.
    repeat split; try tauto; lia.
Qed.

Lemma Do_dispatch w call w2 r :
  breaker_open (thc w) = false -> Do w call = Some (w2, r) ->
  exists c reg w1,
    set_defaults (thc w) (expvars w) = Some (c, reg) /\
    client_do w c reg call = Some w1 /\
    breaker_update w1 (outcome call) = Some w2 /\
    r = returned (outcome call).
Proof.
  intros Hb. unfold Do. rewrite Hb.
  destruct (set_defaults _ _) as [[c reg]|] eqn:E1; simpl; [|discriminate].
  destruct (client_do w c reg call) as [w1|] eqn:E2; simpl; [|discriminate].
  destruct (breaker_update w1 (outcome call)) as [w2'|] eqn:E3; simpl;
    [|discriminate].
  intros H; inversion H; subst. exists c, reg, w1. repeat split; assumption.
Qed.

Lemma wrap32_small z : - 2 ^ 31 <= z <= int32_max -> wrap32 z = z.
Proof.
  unfold wrap32, int32_max; intros H.
  rewrite Z.mod_small; lia.
Qed.

Lemma Sub_mono_l t t' u : t <= t' -> Sub t u <= Sub t' u.
Proof. unfold Sub; lia. Qed.

(** The hooks of the dial phase leave the anchor [t0] and the three
    cumulative series alone. *)
Definition dial_event (ev : HookEvent) : bool :=
  match ev with
  | DNSStart | DNSDone | ConnectStart | ConnectDone
  | TLSHandshakeStart | TLSHandshakeDone => true
  | _ => false
  end.

Lemma run_hooks_app l1 l2 tv m :
  run_hooks tv m (l1 ++ l2) =
  let '(tv', m') := run_hooks tv m l1 in run_hooks tv' m' l2.
Proof.
  revert tv m; induction l1 as [|[t ev] l1 IH]; intros tv m; simpl; [reflexivity|].
  destruct (hook tv m t ev) as [tv' m']; apply IH.
Qed.

Lemma run_hooks_dial l : forall tv m,
  Forall (fun p => dial_event (snd p) = true) l ->
  t0 (fst (run_hooks tv m l)) = t0 tv /\
  GetConnection (snd (run_hooks tv m l)) = GetConnection m /\
  WriteRequest (snd (run_hooks tv m l)) = WriteRequest m /\
  GetResponse (snd (run_hooks tv m l)) = GetResponse m.
Proof.
  induction l as [|[t ev] l IH]; intros tv m Hl; simpl; [repeat split|].
  inversion Hl as [|? ? Hev Hl']; subst; simpl in Hev.
  destruct tv as [a d tc tl], m as [dns tcp tls gc wr gr oo].
  destruct ev; try discriminate; simpl;
    (edestruct IH as (H1 & H2 & H3 & H4); [exact Hl'|]);
    rewrite H1, H2, H3, H4; repeat split.
Qed.

Lemma run_hooks_cons tv m t ev l :
  run_hooks tv m ((t, ev) :: l) = let '(tv', m') := hook tv m t ev in run_hooks tv' m' l.
Proof. reflexivity. Qed.

(** ** C1 *)

(** C1: while MaxErrors > 0 and the failure count is at least MaxErrors,
    Do answers ErrOutOfService with a nil response whatever the underlying
    client would have done, and the world (counter, metrics, registry,
    clock, timers, number of client calls) is left as it was. *)
Theorem Do_out_of_service (w : World) (call : ClientCall)
  (Hpos : 0 < MaxErrors (thc w))
  (Hge : MaxErrors (thc w) <= errorCounter (thc w)) :
  Do w call = Some (w, (None, Some ErrOutOfService)).
Proof.
  unfold Do, breaker_open.
  rewrite (proj2 (Z.ltb_lt _ _) Hpos), (proj2 (Z.leb_le _ _) Hge).
  reflexivity.
Qed.

Definition open_world : World :=
  mkWorld (mkTHC None "test" 2 (100 * Millisecond) 2 None) [] 0 [] 0.

Lemma Do_out_of_service_witness :
  0 < MaxErrors (thc open_world) /\
  MaxErrors (thc open_world) <= errorCounter (thc open_world) /\
  Do open_world get500 = Some (open_world, (None, Some ErrOutOfService)).
Proof.
  split; [simpl; lia|split; [simpl; lia|]].
  apply (Do_out_of_service open_world get500); simpl; lia.
Defined.

(** ** C8 *)

(** C8: for one traced request whose milestones come in order (GetConn at
    [ta], GotConn at [tb], WroteRequest at [tc], GotFirstResponseByte at
    [td], any dial-phase hooks in between), the three cumulative samples
    are [tb - ta], [tc - ta] and [td - ta] (as time.Time.Sub computes them)
    and GetConnection <= WriteRequest <= GetResponse. *)
Theorem trace_cumulative_order tv m ta tb tc td x1 x2 x3 :
  ta <= tb -> tb <= tc -> tc <= td ->
  Forall (fun p => dial_event (snd p) = true) x1 ->
  Forall (fun p => dial_event (snd p) = true) x2 ->
  Forall (fun p => dial_event (snd p) = true) x3 ->
  let m' := snd (run_hooks tv m
                   ((ta, GetConn) :: x1 ++ (tb, GotConn) :: x2 ++
                    (tc, WroteRequest) :: x3 ++ [(td, GotFirstResponseByte)])) in
  GetConnection m' = GetConnection m ++ [Sub tb ta] /\
  WriteRequest m' = WriteRequest m ++ [Sub tc ta] /\
  GetResponse m' = GetResponse m ++ [Sub td ta] /\
  Sub tb ta <= Sub tc ta <= Sub td ta.
Proof.
  intros Hab Hbc Hcd H1 H2 H3 m'. subst m'.
  rewrite run_hooks_cons.
  destruct tv as [a0 d0 tc0 tl0].
  destruct m as [dns tcp tls gc wr gr oo]. simpl.
  rewrite run_hooks_app.
  destruct (run_hooks_dial x1 (mkTraceVars ta d0 tc0 tl0)
              (mkMetrics dns tcp tls gc wr gr oo) H1) as (A1 & B1 & C1 & D1).
  destruct (run_hooks _ _ x1) as [[a1 d1 tc1 tl1] [dns1 tcp1 tls1 gc1 wr1 gr1 oo1]].
  simpl in A1, B1, C1, D1; subst.
  rewrite run_hooks_cons; simpl. rewrite run_hooks_app.
  destruct (run_hooks_dial x2 (mkTraceVars ta d1 tc1 tl1)
              (mkMetrics dns1 tcp1 tls1 (Incr gc (Nanoseconds (Sub tb ta))) wr gr oo1)
              H2) as (A2 & B2 & C2 & D2).
  destruct (run_hooks _ _ x2) as [[a2 d2 tc2 tl2] [dns2 tcp2 tls2 gc2 wr2 gr2 oo2]].
  simpl in A2, B2, C2, D2; subst.
  rewrite run_hooks_cons; simpl. rewrite run_hooks_app.
  destruct (run_hooks_dial x3 (mkTraceVars ta d2 tc2 tl2)
              (mkMetrics dns2 tcp2 tls2 (Incr gc (Nanoseconds (Sub tb ta)))
                 (Incr wr (Nanoseconds (Sub tc ta))) gr oo2)
              H3) as (A3 & B3 & C3 & D3).
  destruct (run_hooks _ _ x3) as [[a3 d3 tc3 tl3] [dns3 tcp3 tls3 gc3 wr3 gr3 oo3]].
  simpl in A3, B3, C3, D3; subst. simpl.
  repeat split; try apply Sub_mono_l; lia.
Qed.

Lemma trace_cumulative_order_witness :
  (0 <= 5 /\ 5 <= 7 /\ 7 <= 12) /\
  let m' := snd (run_hooks trace_init new_metrics
                   ((0, GetConn) :: [(1, DNSStart); (2, DNSDone)] ++
                    (5, GotConn) :: [] ++ (7, WroteRequest) :: [] ++
                    [(12, GotFirstResponseByte)])) in
  GetConnection m' = GetConnection new_metrics ++ [Sub 5 0] /\
  WriteRequest m' = WriteRequest new_metrics ++ [Sub 7 0] /\
  GetResponse m' = GetResponse new_metrics ++ [Sub 12 0] /\
  Sub 5 0 <= Sub 7 0 <= Sub 12 0.
Proof.
  split; [lia|].
  apply (trace_cumulative_order trace_init new_metrics 0 5 7 12
           [(1, DNSStart); (2, DNSDone)] [] []);
    try lia; repeat constructor.
Defined.

(** ** C10 *)

(** C10: the failure test of Do is defined on every result http.Client.Do
    can give: with a non-nil error it is a failure whatever the response
    (nil included), without reading any status code; with no error and a
    response, it compares that response's status with 500. *)
Theorem is_failure_total :
  (forall (r : option Response) (e : TransportError),
      is_failure (mkOutcome r (Some e)) = Some true) /\
  (forall rsp : Response,
      is_failure (mkOutcome (Some rsp) None) = Some (500 <=? StatusCode rsp)).
Proof. split; intros; reflexivity. Qed.

(** What a dispatched Do does to the counter: [cm] is its value when the
    client returns, either the old one or 0 if a cooldown fired meanwhile. *)
Lemma Do_dispatched_counter w call w' r :
  breaker_open (thc w) = false -> Do w call = Some (w', r) ->
  r = returned (outcome call) /\ calls w' = S (calls w) /\
  MaxErrors (thc w') = MaxErrors (thc w) /\
  exists cm, (cm = 0 \/ cm = errorCounter (thc w)) /\
    (0 < MaxErrors (thc w) ->
       (is_failure (outcome call) = Some true /\
        errorCounter (thc w') = AddInt32 cm 1) \/
       (is_failure (outcome call) = Some false /\ errorCounter (thc w') = 0)) /\
    (MaxErrors (thc w) <= 0 -> errorCounter (thc w') = cm).
Proof.
  intros Hb HDo.
  destruct (Do_dispatch w call w' r Hb HDo) as (c & reg & w1 & Hs & Hc & Hu & Hr).
  destruct (set_defaults_spec _ _ _ _ Hs) as (Sm & Se & _).
  destruct (client_do_spec _ _ _ _ _ Hc) as (Cm & _ & _ & _ & Ccalls & _ & _ & _ & Ce).
  destruct (breaker_update_spec _ _ _ Hu) as (Um & _ & Ucalls & _ & _ & _ & Uoff & Uon).
  split; [exact Hr|]. split; [congruence|]. split; [congruence|].
  exists (errorCounter (thc w1)). split.
  - rewrite Ce. destruct (existsb _ _); [left|right]; congruence.
  - split.
    + intros Hpos. destruct (Uon ltac:(congruence)) as [(F & E & _)|(F & E & _)].
      * left; split; assumption.
      * right; split; assumption.
    + intros Hle. rewrite (Uoff ltac:(congruence)). reflexivity.
Qed.

(** ** C3 *)

(** C3: with MaxErrors > 0, a request sent while fewer than MaxErrors
    failures have accumulated, whose client call returns no error and a
    status below 500, leaves the failure count at 0. *)
Theorem Do_success_resets_counter w call w' r rsp :
  0 < MaxErrors (thc w) -> errorCounter (thc w) < MaxErrors (thc w) ->
  err (outcome call) = None -> res (outcome call) = Some rsp ->
  StatusCode rsp < 500 ->
  Do w call = Some (w', r) -> errorCounter (thc w') = 0.
Proof.
  intros Hpos Hlt He Hres Hst HDo.
  assert (Hb : breaker_open (thc w) = false).
  { unfold breaker_open. rewrite (proj2 (Z.ltb_lt _ _) Hpos).
    apply Z.leb_gt. exact Hlt. }
  destruct (Do_dispatched_counter _ _ _ _ Hb HDo) as (_ & _ & _ & cm & _ & Hon & _).
  assert (Hf : is_failure (outcome call) = Some false).
  { unfold is_failure. rewrite He, Hres. f_equal. apply Z.leb_gt. exact Hst. }
  destruct (Hon Hpos) as [(F & _)|(_ & E)]; [congruence|exact E].
Qed.

Definition one_error_world : World :=
  mkWorld (mkTHC None "test" 2 (100 * Millisecond) 1 None) [] 0 [] 0.
Definition get200 : ClientCall :=
  mkClientCall Millisecond [] (mkOutcome (Some (mkResponse 200)) None).
Definition after_get200 : World :=
  Eval vm_compute in
    match Do one_error_world get200 with Some (w', _) => w' | None => one_error_world end.

Lemma Do_success_resets_counter_witness :
  Do one_error_world get200 = Some (after_get200, returned (outcome get200)) /\
  errorCounter (thc after_get200) = 0.
Proof.
  split; [vm_compute; reflexivity|].
  apply (Do_success_resets_counter one_error_world get200 after_get200
           (returned (outcome get200)) (mkResponse 200));
    try (simpl; lia); try reflexivity.
Defined.

(** ** C5 *)

(** C5: a dispatched request (breaker not open) returns exactly what the
    underlying client returned and calls it once.  The outcome counts as a
    failure exactly when the error is non-nil or the status is >= 500:
    with MaxErrors > 0, a failure leaves the counter positive and anything
    else leaves it at 0. *)
Theorem Do_dispatched_outcome w call w' r :
  breaker_open (thc w) = false -> Do w call = Some (w', r) ->
  r = returned (outcome call) /\ calls w' = S (calls w) /\
  (is_failure (outcome call) = Some true <->
     err (outcome call) <> None \/
     exists rsp, res (outcome call) = Some rsp /\ 500 <= StatusCode rsp) /\
  (0 < MaxErrors (thc w) -> MaxErrors (thc w) <= int32_max ->
   0 <= errorCounter (thc w) ->
     ((err (outcome call) <> None \/
       exists rsp, res (outcome call) = Some rsp /\ 500 <= StatusCode rsp) ->
      0 < errorCounter (thc w')) /\
     (err (outcome call) = None ->
      forall rsp, res (outcome call) = Some rsp -> StatusCode rsp < 500 ->
      errorCounter (thc w') = 0)).
Proof.
  intros Hb HDo.
  destruct (Do_dispatched_counter _ _ _ _ Hb HDo)
    as (Hr & Hc & _ & cm & Hcm & Hon & _).
  assert (Hiff : is_failure (outcome call) = Some true <->
     err (outcome call) <> None \/
     exists rsp, res (outcome call) = Some rsp /\ 500 <= StatusCode rsp).
  { unfold is_failure.
    destruct (err (outcome call)) as [e|]; [split; [left; discriminate|reflexivity]|].
    destruct (res (outcome call)) as [rsp|].
    - split.
      + intros H; right; exists rsp; split; [reflexivity|].
        inversion H as [H']; apply Z.leb_le; exact H'.
      + intros [H|(rsp' & E & H)]; [congruence|].
        inversion E; subst. rewrite (proj2 (Z.leb_le _ _) H). reflexivity.
    - split; [discriminate|]. intros [H|(rsp' & E & _)]; congruence. }
  split; [exact Hr|]. split; [exact Hc|]. split; [exact Hiff|].
  intros Hpos Hmax Hnn.
  unfold breaker_open in Hb. rewrite (proj2 (Z.ltb_lt _ _) Hpos) in Hb.
  simpl in Hb. apply Z.leb_gt in Hb.
  split.
  - intros Hfail. apply Hiff in Hfail.
    destruct (Hon Hpos) as [(_ & E)|(F & _)]; [|congruence].
    rewrite E. unfold AddInt32. rewrite wrap32_small; unfold int32_max in *; lia.
  - intros He rsp Hres Hst.
    destruct (Hon Hpos) as [(F & _)|(_ & E)]; [|exact E].
    unfold is_failure in F. rewrite He, Hres in F. inversion F as [F'].
    apply Z.leb_le in F'. lia.
Qed.

Lemma Do_dispatched_outcome_witness :
  breaker_open (thc one_error_world) = false /\
  Do one_error_world get200 = Some (after_get200, returned (outcome get200)) /\
  calls after_get200 = S (calls one_error_world) /\
  errorCounter (thc after_get200) = 0.
Proof.
  assert (Hb : breaker_open (thc one_error_world) = false) by reflexivity.
  assert (HDo : Do one_error_world get200 =
                Some (after_get200, returned (outcome get200)))
    by (vm_compute; reflexivity).
  destruct (Do_dispatched_outcome _ _ _ _ Hb HDo) as (_ & Hc & _ & Hon).
  split; [exact Hb|]. split; [exact HDo|]. split; [exact Hc|].
  apply (proj2 (Hon ltac:(simpl; lia) ltac:(vm_compute; congruence)
                    ltac:(simpl; lia)) eq_refl (mkResponse 200) eq_refl).
  simpl; lia.
Defined.

(** ** Runs of several requests *)

Lemma run_ops_ODo w call rest w' rs :
  run_ops w (ODo call :: rest) = Some (w', rs) ->
  exists w1 r rs', Do w call = Some (w1, r) /\ run_ops w1 rest = Some (w', rs') /\
                   rs = r :: rs'.
Proof.
  simpl. destruct (Do w call) as [[w1 r]|] eqn:E1; simpl; [|discriminate].
  destruct (run_ops w1 rest) as [[w'' rs']|] eqn:E2; simpl; [|discriminate].
  intros H; inversion H; subst. exists w1, r, rs'. repeat split; assumption.
Qed.

Lemma Do_open_same w call w' r :
  breaker_open (thc w) = true -> Do w call = Some (w', r) ->
  w' = w /\ r = (None, Some ErrOutOfService).
Proof.
  unfold Do. intros Hb. rewrite Hb. intros H; inversion H; split; reflexivity.
Qed.

Lemma Do_MaxErrors w call w' r :
  Do w call = Some (w', r) -> MaxErrors (thc w') = MaxErrors (thc w).
Proof.
  destruct (breaker_open (thc w)) eqn:Hb; intros HDo.
  - destruct (Do_open_same _ _ _ _ Hb HDo); subst; reflexivity.
  - exact (proj1 (proj2 (proj2 (Do_dispatched_counter _ _ _ _ Hb HDo)))).
Qed.

(** The requests of a run, in order. *)
Fixpoint client_calls (ops : list Op) : list ClientCall :=
  match ops with
  | [] => []
  | ODo call :: rest => call :: client_calls rest
  | OSleep _ :: rest => client_calls rest
  end.

Lemma Do_counter_bound w call w' r :
  0 < MaxErrors (thc w) <= int32_max ->
  0 <= errorCounter (thc w) <= MaxErrors (thc w) ->
  Do w call = Some (w', r) ->
  0 <= errorCounter (thc w') <= MaxErrors (thc w').
Proof.
  intros Hm Hc HDo. rewrite (Do_MaxErrors _ _ _ _ HDo).
  destruct (breaker_open (thc w)) eqn:Hb.
  - destruct (Do_open_same _ _ _ _ Hb HDo); subst; exact Hc.
  - unfold breaker_open in Hb.
    rewrite (proj2 (Z.ltb_lt _ _) (proj1 Hm)) in Hb. simpl in Hb.
    apply Z.leb_gt in Hb.
    destruct (Do_dispatched_counter _ _ _ _ ltac:(unfold breaker_open;
                rewrite (proj2 (Z.ltb_lt _ _) (proj1 Hm)); simpl;
                apply Z.leb_gt; exact Hb) HDo)
      as (_ & _ & _ & cm & Hcm & Hon & _).
    destruct (Hon (proj1 Hm)) as [(_ & E)|(_ & E)]; rewrite E; [|lia].
    unfold AddInt32. unfold int32_max in Hm.
    rewrite wrap32_small; unfold int32_max; lia.
Qed.

Lemma advance_counter_bound d w :
  0 <= errorCounter (thc w) <= MaxErrors (thc w) ->
  0 <= errorCounter (thc (advance d w)) <= MaxErrors (thc (advance d w)).
Proof.
  destruct (advance_thc_fields d w) as (Hm & _ & _ & He).
  rewrite Hm, He. destruct (existsb _ _); lia.
Qed.

(** ** C6 *)

(** C6: with 0 < MaxErrors (an int32), any run of requests and pauses
    starting with a failure count in [0, MaxErrors] (0 in particular) keeps
    it in [0, MaxErrors], and MaxErrors does not change. *)
Theorem counter_bounded w ops w' rs :
  0 < MaxErrors (thc w) <= int32_max ->
  0 <= errorCounter (thc w) <= MaxErrors (thc w) ->
  run_ops w ops = Some (w', rs) ->
  MaxErrors (thc w') = MaxErrors (thc w) /\
  0 <= errorCounter (thc w') <= MaxErrors (thc w').
Proof.
  revert w w' rs. induction ops as [|op ops IH]; intros w w' rs Hm Hc Hrun.
  - simpl in Hrun. inversion Hrun; subst. split; [reflexivity|exact Hc].
  - destruct op as [call|d].
    + destruct (run_ops_ODo _ _ _ _ _ Hrun) as (w1 & r & rs' & HDo & Hrest & _).
      pose proof (Do_MaxErrors _ _ _ _ HDo) as HM1.
      destruct (IH w1 w' rs') as [HM' Hc']; try rewrite HM1; try assumption.
      * rewrite <- HM1. exact (Do_counter_bound _ _ _ _ Hm Hc HDo).
      * split; [congruence|exact Hc'].
    + simpl in Hrun.
      destruct (advance_thc_fields d w) as (HM1 & _).
      destruct (IH (advance d w) w' rs) as [HM' Hc']; try rewrite HM1; try assumption.
      * rewrite <- HM1. exact (advance_counter_bound d w Hc).
      * split; [congruence|exact Hc'].
Qed.

Definition c6_ops : list Op :=
  [ODo get500; ODo get500; ODo get500; OSleep (101 * Millisecond); ODo get200].
Definition c6_final : World :=
  Eval vm_compute in
    match run_ops test_world c6_ops with Some (w', _) => w' | None => test_world end.
Definition c6_results :=
  Eval vm_compute in
    match run_ops test_world c6_ops with Some (_, rs) => rs | None => [] end.

Lemma counter_bounded_witness :
  run_ops test_world c6_ops = Some (c6_final, c6_results) /\
  MaxErrors (thc c6_final) = MaxErrors (thc test_world) /\
  0 <= errorCounter (thc c6_final) <= MaxErrors (thc c6_final).
Proof.
  assert (H : run_ops test_world c6_ops = Some (c6_final, c6_results))
    by (vm_compute; reflexivity).
  split; [exact H|].
  apply (counter_bounded test_world c6_ops c6_final c6_results);
    [vm_compute; split; congruence | simpl; lia | exact H].
Defined.

(** ** C9 *)

(** C9: with MaxErrors = 0 the breaker is off.  The fail-fast test is false
    whatever the counter holds; over any run starting with the counter at 0,
    every request goes to the underlying client, Do returns exactly its
    results (never ErrOutOfService), and the counter stays 0. *)
Theorem breaker_disabled w ops w' rs :
  MaxErrors (thc w) = 0 -> errorCounter (thc w) = 0 ->
  run_ops w ops = Some (w', rs) ->
  (forall ec, breaker_open (set_errorCounter (thc w) ec) = false) /\
  errorCounter (thc w') = 0 /\ MaxErrors (thc w') = 0 /\
  rs = map (fun call => returned (outcome call)) (client_calls ops) /\
  calls w' = (calls w + List.length (client_calls ops))%nat /\
  Forall (fun r => snd r <> Some ErrOutOfService) rs.
Proof.
  intros Hm0 Hc0 Hrun.
  split; [intros ec; unfold breaker_open; simpl; rewrite Hm0; reflexivity|].
  revert w w' rs Hm0 Hc0 Hrun.
  induction ops as [|op ops IH]; intros w w' rs Hm0 Hc0 Hrun.
  - simpl in Hrun. inversion Hrun; subst. simpl.
    repeat split; try assumption; try lia; constructor.
  - destruct op as [call|d].
    + destruct (run_ops_ODo _ _ _ _ _ Hrun) as (w1 & r & rs' & HDo & Hrest & ->).
      assert (Hb : breaker_open (thc w) = false)
        by (unfold breaker_open; rewrite Hm0; reflexivity).
      destruct (Do_dispatched_counter _ _ _ _ Hb HDo)
        as (Hr & Hc & HM & cm & Hcm & _ & Hoff).
      assert (Hc1 : errorCounter (thc w1) = 0)
        by (rewrite (Hoff ltac:(lia)); destruct Hcm; congruence).
      destruct (IH w1 w' rs' ltac:(congruence) Hc1 Hrest)
        as (He & HM' & Hrs & Hcalls & Hall).
      simpl. repeat split; try assumption.
      * rewrite Hr, Hrs. reflexivity.
      * rewrite Hcalls, Hc. lia.
      * constructor; [rewrite Hr; unfold returned; simpl;
                      destruct (err (outcome call)); discriminate | exact Hall].
    + simpl in Hrun.
      destruct (advance_thc_fields d w) as (HM1 & _ & _ & He1).
      destruct (advance_world_fields d w) as (_ & Hcalls1 & _).
      destruct (IH (advance d w) w' rs) as (He & HM' & Hrs & Hcalls & Hall);
        try assumption; try congruence.
      * rewrite He1, Hc0. destruct (existsb _ _); reflexivity.
      * simpl. repeat split; try assumption; rewrite Hcalls, Hcalls1; reflexivity.
Qed.

Definition plain_world : World :=
  mkWorld (mkTHC None "" 0 0 0 None) [] 0 [] 0.
Definition c9_final : World :=
  Eval vm_compute in
    match run_ops plain_world c6_ops with Some (w', _) => w' | None => plain_world end.
Definition c9_results :=
  Eval vm_compute in
    match run_ops plain_world c6_ops with Some (_, rs) => rs | None => [] end.

Lemma breaker_disabled_witness :
  run_ops plain_world c6_ops = Some (c9_final, c9_results) /\
  errorCounter (thc c9_final) = 0 /\
  calls c9_final = (calls plain_world + List.length (client_calls c6_ops))%nat.
Proof.
  assert (H : run_ops plain_world c6_ops = Some (c9_final, c9_results))
    by (vm_compute; reflexivity).
  destruct (breaker_disabled plain_world c6_ops c9_final c9_results
              eq_refl eq_refl H) as (_ & He & _ & _ & Hc & _).
  split; [exact H|split; [exact He|exact Hc]].
Defined.

(** ** Setup *)

(** Setup can run: either PublishExpvar was already called, or the seven
    names of this client are still free in the expvar registry. *)
Definition setup_ok (w : World) : Prop :=
  metrics (thc w) <> None \/ PublishExpvar (thc w) (expvars w) <> None.

Lemma PublishExpvar_Name c c' reg :
  Name c = Name c' -> PublishExpvar c reg <> None -> PublishExpvar c' reg <> None.
Proof.
  intros HN. unfold PublishExpvar, obind. rewrite HN.
  repeat match goal with
         | |- context [Publish ?n ?r] => destruct (Publish n r); [|tauto]
         end.
  intros _; discriminate.
Qed.

Lemma set_defaults_some w :
  setup_ok w -> exists c reg, set_defaults (thc w) (expvars w) = Some (c, reg).
Proof.
  unfold setup_ok, set_defaults.
  destruct (thc w) as [cl nm mx ht ec [m|]]; simpl; intros Hok.
  - destruct cl; simpl; destruct (ht =? 0); simpl; eauto.
  - destruct Hok as [Hok|Hok]; [congruence|].
    destruct cl; simpl; destruct (ht =? 0); simpl;
      match goal with
      | |- exists _ _, PublishExpvar ?c' ?r = _ =>
          destruct (PublishExpvar c' r) as [[c reg]|] eqn:E; [eauto|];
          exfalso; first [ congruence
                         | eapply (PublishExpvar_Name _ c' r); [|exact Hok|exact E];
                           reflexivity ]
      end.
Qed.

Lemma client_do_some w c reg call :
  metrics c <> None -> exists w1, client_do w c reg call = Some w1.
Proof.
  unfold client_do. destruct (metrics c); [eauto|congruence].
Qed.

Lemma breaker_update_some w1 o :
  metrics (thc w1) <> None ->
  (0 < MaxErrors (thc w1) -> is_failure o <> None) ->
  exists w2, breaker_update w1 o = Some w2.
Proof.
  destruct w1 as [[cl nm mx ht ec ms] reg tn tms cs].
  unfold breaker_update; simpl. intros Hm Hf.
  destruct (Z.ltb_spec 0 mx) as [Hpos|Hpos]; [|eauto].
  destruct (is_failure o) as [[|]|]; simpl;
    [| eauto | exfalso; apply (Hf Hpos); reflexivity].
  destruct (_ =? _); [|eauto].
  destruct ms; [eauto|congruence].
Qed.

(** A dispatched request returns as soon as setup can run and, with the
    breaker on, its result can be classified. *)
Lemma Do_some w call :
  breaker_open (thc w) = false -> setup_ok w ->
  (0 < MaxErrors (thc w) -> is_failure (outcome call) <> None) ->
  exists w', Do w call = Some (w', returned (outcome call)).
Proof.
  intros Hb Hok Hf.
  destruct (set_defaults_some w Hok) as (c & reg & Hs).
  destruct (set_defaults_spec _ _ _ _ Hs) as (Sm & _ & Smet & _).
  destruct (client_do_some w c reg call Smet) as (w1 & Hc).
  destruct (client_do_spec _ _ _ _ _ Hc) as (Cm & _ & Cmet & _).
  destruct (breaker_update_some w1 (outcome call) Cmet
              ltac:(intros H; apply Hf; congruence)) as (w2 & Hu).
  exists w2. unfold Do. rewrite Hb, Hs. cbn [obind].
  rewrite Hc. cbn [obind]. rewrite Hu. reflexivity.
Qed.

(** ** Consecutive failures *)

(** A failing result in the words of the package doc: a transport error,
    or a response with a status of 500 or more. *)
Definition failing (o : Outcome) : Prop :=
  err o <> None \/ exists rsp, res o = Some rsp /\ 500 <= StatusCode rsp.

Lemma failing_is_failure o : failing o -> is_failure o = Some true.
Proof.
  unfold failing, is_failure. intros [He|(rsp & Hr & Hs)].
  - destruct (err o); [reflexivity|congruence].
  - destruct (err o); [reflexivity|]. rewrite Hr.
    rewrite (proj2 (Z.leb_le _ _) Hs). reflexivity.
Qed.

Lemma run_ops_Do_cons w call w1 r rest w' rs :
  Do w call = Some (w1, r) -> run_ops w1 rest = Some (w', rs) ->
  run_ops w (ODo call :: rest) = Some (w', r :: rs).
Proof. intros H1 H2. simpl. rewrite H1. simpl. rewrite H2. reflexivity. Qed.

Lemma Do_when_open w call :
  breaker_open (thc w) = true -> Do w call = Some (w, (None, Some ErrOutOfService)).
Proof. intros Hb. unfold Do. rewrite Hb. reflexivity. Qed.

Lemma Do_failure_step w call :
  0 < MaxErrors (thc w) <= int32_max ->
  0 <= errorCounter (thc w) < MaxErrors (thc w) ->
  timers w = [] -> setup_ok w -> failing (outcome call) ->
  exists w', Do w call = Some (w', returned (outcome call)) /\
    errorCounter (thc w') = errorCounter (thc w) + 1 /\
    MaxErrors (thc w') = MaxErrors (thc w) /\
    metrics (thc w') <> None /\ calls w' = S (calls w) /\
    (errorCounter (thc w) + 1 < MaxErrors (thc w) ->
       timers w' = [] /\ oos (thc w') = oos (thc w)) /\
    (errorCounter (thc w) + 1 = MaxErrors (thc w) ->
       timers w' = [now w' + HealingTime (thc w')] /\
       oos (thc w') = oos (thc w) ++ [1]).
Proof.
  intros Hm Hc Ht Hok Hfail.
  pose proof (failing_is_failure _ Hfail) as Hf.
  assert (Hb : breaker_open (thc w) = false).
  { unfold breaker_open. rewrite (proj2 (Z.ltb_lt _ _) (proj1 Hm)).
    apply Z.leb_gt. lia. }
  destruct (Do_some w call Hb Hok ltac:(rewrite Hf; discriminate)) as (w' & HDo).
  exists w'. split; [exact HDo|].
  destruct (Do_dispatch _ _ _ _ Hb HDo) as (c & reg & w1 & Hs & Hcd & Hu & _).
  destruct (set_defaults_spec _ _ _ _ Hs) as (Sm & Se & Smet & Soos & _).
  destruct (client_do_spec _ _ _ _ _ Hcd)
    as (Cm & _ & Cmet & Coos & Ccalls & _ & _ & Ctim & Ce).
  rewrite Ht in Ctim, Ce. simpl in Ctim, Ce.
  destruct (breaker_update_spec _ _ _ Hu)
    as (Um & Uh & Ucalls & Unow & _ & Umet & _ & Uon).
  destruct (Uon ltac:(lia)) as [(_ & Ue & Une & Ueq)|(F & _)]; [|congruence].
  assert (Hk : AddInt32 (errorCounter (thc w1)) 1 = errorCounter (thc w) + 1).
  { rewrite Ce, Se. unfold AddInt32. rewrite wrap32_small; unfold int32_max in *; lia. }
  split; [congruence|]. split; [congruence|]. split; [exact (Umet Cmet)|].
  split; [congruence|]. split.
  - intros Hlt. destruct (Une ltac:(lia)) as (T & O).
    split; [rewrite T, Ctim; reflexivity|rewrite O, Coos, Soos; reflexivity].
  - intros Heq. destruct (Ueq ltac:(lia)) as (T & O).
    split; [rewrite T, Ctim, Unow, Uh; reflexivity
           |rewrite O, Coos, Soos; reflexivity].
Qed.

Lemma failures_accumulate calls_ : forall w,
  0 < MaxErrors (thc w) <= int32_max -> 0 <= errorCounter (thc w) ->
  errorCounter (thc w) + Z.of_nat (List.length calls_) = MaxErrors (thc w) ->
  calls_ <> [] -> timers w = [] -> setup_ok w ->
  Forall (fun call => failing (outcome call)) calls_ ->
  exists w', run_ops w (map ODo calls_) =
               Some (w', map (fun call => returned (outcome call)) calls_) /\
    oos (thc w') = oos (thc w) ++ [1] /\
    timers w' = [now w' + HealingTime (thc w')] /\
    errorCounter (thc w') = MaxErrors (thc w') /\
    MaxErrors (thc w') = MaxErrors (thc w) /\
    calls w' = (calls w + List.length calls_)%nat.
Proof.
  induction calls_ as [|call rest IH]; intros w Hm Hc Hlen Hne Ht Hok Hall;
    [congruence|].
  inversion Hall as [|? ? Hfail Hrest]; subst.
  simpl List.length in Hlen.
  destruct (Do_failure_step w call Hm ltac:(lia) Ht Hok Hfail)
    as (w1 & HDo & He1 & HM1 & Hmet1 & Hcalls1 & Hlt & Heq).
  destruct rest as [|call2 rest'].
  - simpl in Hlen. destruct (Heq ltac:(lia)) as (T & O).
    exists w1. simpl. rewrite HDo. simpl.
    repeat split; try assumption; try lia; rewrite Hcalls1; lia.
  - simpl List.length in Hlen.
    destruct (Hlt ltac:(lia)) as (T & O).
    destruct (IH w1 ltac:(rewrite HM1; exact Hm) ltac:(lia)
                 ltac:(simpl List.length; lia) ltac:(discriminate) T
                 ltac:(left; exact Hmet1) Hrest)
      as (w' & Hrun & O' & T' & E' & M' & C').
    exists w'. rewrite map_cons, (run_ops_Do_cons _ _ _ _ _ _ _ HDo Hrun).
    repeat split; try assumption; try congruence.
    rewrite C', Hcalls1. simpl List.length. lia.
Qed.

(** ** C2 *)

(** C2: from a failure count of 0 with MaxErrors = threshold > 0 (an
    int32), no pending cooldown, and setup possible, [threshold] failing
    requests in a row (transport error or status >= 500) all reach the
    underlying client and return its results; afterwards the out-of-service
    counter has exactly one more sample (1), exactly one cooldown is
    scheduled (HealingTime after the last request), and the next request
    returns ErrOutOfService without calling the client or changing
    anything. *)
Theorem threshold_failures_open w calls_ :
  0 < MaxErrors (thc w) <= int32_max -> errorCounter (thc w) = 0 ->
  timers w = [] -> setup_ok w ->
  List.length calls_ = Z.to_nat (MaxErrors (thc w)) ->
  Forall (fun call => failing (outcome call)) calls_ ->
  exists w', run_ops w (map ODo calls_) =
               Some (w', map (fun call => returned (outcome call)) calls_) /\
    calls w' = (calls w + List.length calls_)%nat /\
    oos (thc w') = oos (thc w) ++ [1] /\
    timers w' = [now w' + HealingTime (thc w')] /\
    forall call, Do w' call = Some (w', (None, Some ErrOutOfService)).
Proof.
  intros Hm Hc Ht Hok Hlen Hall.
  destruct (failures_accumulate calls_ w Hm ltac:(lia)
              ltac:(rewrite Hlen, Hc, Z2Nat.id; lia)
              ltac:(intros E; rewrite E in Hlen; simpl in Hlen; lia)
              Ht Hok Hall)
    as (w' & Hrun & O & T & E & M & C).
  exists w'. repeat split; try assumption.
  intros call. apply Do_when_open.
  unfold breaker_open. rewrite M, E, M.
  rewrite (proj2 (Z.ltb_lt _ _) (proj1 Hm)), Z.leb_refl. reflexivity.
Qed.

Lemma threshold_failures_open_witness :
  setup_ok test_world /\
  Forall (fun call => failing (outcome call)) [get500; get500] /\
  exists w', run_ops test_world (map ODo [get500; get500]) =
               Some (w', map (fun call => returned (outcome call)) [get500; get500]) /\
    calls w' = (calls test_world + 2)%nat /\
    oos (thc w') = oos (thc test_world) ++ [1] /\
    timers w' = [now w' + HealingTime (thc w')] /\
    forall call, Do w' call = Some (w', (None, Some ErrOutOfService)).
Proof.
  assert (Hok : setup_ok test_world) by (right; vm_compute; discriminate).
  assert (Hf : failing (outcome get500))
    by (right; exists (mkResponse 500); split; [reflexivity|simpl; lia]).
  assert (Hall : Forall (fun call => failing (outcome call)) [get500; get500])
    by (constructor; [exact Hf|constructor; [exact Hf|constructor]]).
  split; [exact Hok|]. split; [exact Hall|].
  apply (threshold_failures_open test_world [get500; get500]);
    try (vm_compute; reflexivity); try exact Hok.
  - unfold int32_max; simpl; lia.
  - exact Hall.
Defined.

(** ** Cooldown *)

(** The request that brings the counter to MaxErrors schedules a cooldown
    HealingTime after it returns. *)
Lemma Do_opening_schedules w call w1 r :
  0 < MaxErrors (thc w) -> breaker_open (thc w) = false ->
  Do w call = Some (w1, r) -> errorCounter (thc w1) = MaxErrors (thc w1) ->
  In (now w1 + HealingTime (thc w1)) (timers w1).
Proof.
  intros Hpos Hb HDo Hopen.
  destruct (Do_dispatch _ _ _ _ Hb HDo) as (c & reg & w' & Hs & Hcd & Hu & _).
  destruct (set_defaults_spec _ _ _ _ Hs) as (Sm & _).
  destruct (client_do_spec _ _ _ _ _ Hcd) as (Cm & _).
  destruct (breaker_update_spec _ _ _ Hu)
    as (Um & Uh & _ & Unow & _ & _ & _ & Uon).
  destruct (Uon ltac:(lia)) as [(_ & Ue & _ & Ueq)|(_ & Ue & _)]; [|lia].
  destruct (Ueq ltac:(congruence)) as (T & _).
  rewrite T, Unow, Uh. apply in_or_app. right. left. reflexivity.
Qed.

Lemma advance_time d w :
  now w <= now (advance d w) /\
  forall D, In D (timers w) -> now (advance d w) < D -> In D (timers (advance d w)).
Proof.
  unfold advance; simpl. split; [lia|].
  intros D HD Hlt. apply filter_In. split; [exact HD|].
  destruct (Z.leb_spec D (now w + Z.max 0 d)); [lia|reflexivity].
Qed.

Lemma Do_time w call w' r :
  Do w call = Some (w', r) ->
  now w <= now w' /\
  forall D, In D (timers w) -> now w' < D -> In D (timers w').
Proof.
  intros HDo. destruct (breaker_open (thc w)) eqn:Hb.
  - destruct (Do_open_same _ _ _ _ Hb HDo); subst. split; [lia|auto].
  - destruct (Do_dispatch _ _ _ _ Hb HDo) as (c & reg & w1 & _ & Hcd & Hu & _).
    destruct (client_do_spec _ _ _ _ _ Hcd)
      as (_ & _ & _ & _ & _ & _ & Cnow & Ctim & _).
    destruct (breaker_update_spec _ _ _ Hu)
      as (_ & _ & _ & Unow & _ & _ & Uoff & Uon).
    assert (Hin1 : forall D, In D (timers w) -> now w' < D -> In D (timers w1)).
    { intros D HD Hlt. rewrite Ctim. apply filter_In. split; [exact HD|].
      destruct (Z.leb_spec D (now w + Z.max 0 (dur call))); [lia|reflexivity]. }
    split; [lia|].
    intros D HD Hlt. specialize (Hin1 D HD Hlt).
    destruct (Z.ltb_spec 0 (MaxErrors (thc w1))) as [Hpos|Hpos].
    + destruct (Uon Hpos) as [(_ & _ & Une & Ueq)|(_ & _ & T & _)];
        [|rewrite T; exact Hin1].
      destruct (Z.eq_dec (AddInt32 (errorCounter (thc w1)) 1) (MaxErrors (thc w1)))
        as [E|E].
      * rewrite (proj1 (Ueq E)). apply in_or_app. left. exact Hin1.
      * rewrite (proj1 (Une E)). exact Hin1.
    + rewrite (Uoff Hpos). exact Hin1.
Qed.

Lemma run_ops_time ops : forall w w' rs,
  run_ops w ops = Some (w', rs) ->
  MaxErrors (thc w') = MaxErrors (thc w) /\ now w <= now w' /\
  forall D, In D (timers w) -> now w' < D -> In D (timers w').
Proof.
  induction ops as [|op ops IH]; intros w w' rs Hrun.
  - simpl in Hrun. inversion Hrun; subst. split; [reflexivity|split; [lia|auto]].
  - destruct op as [call|d].
    + destruct (run_ops_ODo _ _ _ _ _ Hrun) as (w1 & r & rs' & HDo & Hrest & _).
      destruct (Do_time _ _ _ _ HDo) as (N1 & T1).
      destruct (IH _ _ _ Hrest) as (M & N & T).
      split; [rewrite M; exact (Do_MaxErrors _ _ _ _ HDo)|].
      split; [lia|]. intros D HD Hlt. apply T; [apply T1; [exact HD|lia]|exact Hlt].
    + simpl in Hrun.
      destruct (advance_time d w) as (N1 & T1).
      destruct (IH _ _ _ Hrun) as (M & N & T).
      split; [rewrite M; apply advance_thc_fields|].
      split; [lia|]. intros D HD Hlt. apply T; [apply T1; [exact HD|lia]|exact Hlt].
Qed.

Lemma advance_fires d w D :
  In D (timers w) -> D <= now w + Z.max 0 d -> errorCounter (thc (advance d w)) = 0.
Proof.
  intros HD Hle. rewrite (proj2 (proj2 (proj2 (advance_thc_fields d w)))).
  replace (existsb _ _) with true; [reflexivity|].
  symmetry. apply existsb_exists. exists D. split; [exact HD|].
  apply Z.leb_le. exact Hle.
Qed.

(** ** C4 *)

(** C4: let a request bring the failure count to MaxErrors (> 0); whatever
    happens next (requests, pauses) before its cooldown is due, once time
    reaches HealingTime after that request the counter is 0, the breaker is
    closed, and the next request goes to the underlying client and returns
    its result.  Concretely (TestCircuitBreaker: MaxErrors 2, HealingTime
    100ms, a server always answering 500, each call taking 1ms): requests 1
    and 2 return the 500 response with no error, request 3 returns
    ErrOutOfService, and after sleeping 101ms request 4 returns the 500
    response with no error again. *)
Theorem cooldown_heals w call w1 r ops w2 rs d :
  0 < MaxErrors (thc w) -> errorCounter (thc w) < MaxErrors (thc w) ->
  Do w call = Some (w1, r) -> errorCounter (thc w1) = MaxErrors (thc w1) ->
  run_ops w1 ops = Some (w2, rs) ->
  now w2 < now w1 + HealingTime (thc w1) ->
  now w1 + HealingTime (thc w1) <= now w2 + Z.max 0 d ->
  errorCounter (thc (advance d w2)) = 0 /\
  breaker_open (thc (advance d w2)) = false /\
  (forall call' w3 r3, Do (advance d w2) call' = Some (w3, r3) ->
     r3 = returned (outcome call') /\ calls w3 = S (calls (advance d w2))) /\
  option_map snd test_scenario =
  Some [(Some (mkResponse 500), None); (Some (mkResponse 500), None);
        (None, Some ErrOutOfService); (Some (mkResponse 500), None)].
Proof.
  intros Hpos Hlt HDo Hopen Hrun Hbefore Hafter.
  assert (Hb : breaker_open (thc w) = false).
  { unfold breaker_open. rewrite (proj2 (Z.ltb_lt _ _) Hpos). apply Z.leb_gt. lia. }
  pose proof (Do_opening_schedules _ _ _ _ Hpos Hb HDo Hopen) as Hsched.
  destruct (run_ops_time _ _ _ _ Hrun) as (M2 & _ & T2).
  pose proof (T2 _ Hsched Hbefore) as Hpend.
  pose proof (advance_fires d w2 _ Hpend Hafter) as H0.
  assert (Hb3 : breaker_open (thc (advance d w2)) = false).
  { unfold breaker_open. rewrite H0.
    destruct (0 <? MaxErrors (thc (advance d w2))) eqn:Hm; [|reflexivity].
    simpl. apply Z.ltb_lt in Hm. apply Z.leb_gt. exact Hm. }
  split; [exact H0|]. split; [exact Hb3|]. split.
  - intros call' w3 r3 HDo3.
    destruct (Do_dispatched_counter _ _ _ _ Hb3 HDo3) as (Hr & Hc & _).
    split; assumption.
  - vm_compute. reflexivity.
Qed.

Definition scen_w_r1 : World :=
  Eval vm_compute in
    match Do test_world get500 with Some (w', _) => w' | None => test_world end.
Definition scen_w_r2 : World :=
  Eval vm_compute in
    match Do scen_w_r1 get500 with Some (w', _) => w' | None => scen_w_r1 end.

Lemma cooldown_heals_witness :
  Do scen_w_r1 get500 = Some (scen_w_r2, returned resp500) /\
  errorCounter (thc scen_w_r2) = MaxErrors (thc scen_w_r2) /\
  run_ops scen_w_r2 [ODo get500] =
    Some (scen_w_r2, [(None, Some ErrOutOfService)]) /\
  errorCounter (thc (advance (101 * Millisecond) scen_w_r2)) = 0 /\
  breaker_open (thc (advance (101 * Millisecond) scen_w_r2)) = false.
Proof.
  assert (H1 : Do scen_w_r1 get500 = Some (scen_w_r2, returned resp500))
    by (vm_compute; reflexivity).
  assert (H2 : run_ops scen_w_r2 [ODo get500] =
               Some (scen_w_r2, [(None, Some ErrOutOfService)]))
    by (vm_compute; reflexivity).
  destruct (cooldown_heals scen_w_r1 get500 scen_w_r2 (returned resp500)
              [ODo get500] scen_w_r2 [(None, Some ErrOutOfService)]
              (101 * Millisecond)
              ltac:(vm_compute; reflexivity) ltac:(vm_compute; reflexivity)
              H1 ltac:(vm_compute; reflexivity) H2
              ltac:(vm_compute; reflexivity) ltac:(vm_compute; discriminate))
    as (H0 & Hb & _).
  repeat split; try assumption.
Defined.

(** ** Setup is not idempotent *)

Lemma Publish_incl x r r' : Publish x r = Some r' -> incl r r'.
Proof.
  unfold Publish. destruct (existsb _ _); [discriminate|].
  intros H; inversion H; subst. apply incl_appl, incl_refl.
Qed.

Lemma Publish_In x r r' : Publish x r = Some r' -> In x r'.
Proof.
  unfold Publish. destruct (existsb _ _); [discriminate|].
  intros H; inversion H; subst. apply in_or_app. right. left. reflexivity.
Qed.

Lemma Publish_again x r : In x r -> Publish x r = None.
Proof.
  intros Hin. unfold Publish.
  replace (existsb (String.eqb x) r) with true; [reflexivity|].
  symmetry. apply existsb_exists. exists x. split; [exact Hin|apply String.eqb_refl].
Qed.

Lemma PublishExpvar_registers c reg c1 reg1 :
  PublishExpvar c reg = Some (c1, reg1) ->
  c1 = set_metrics c (Some new_metrics) /\
  In ((if String.eqb (Name c) "" then "thc"%string else Name c) ++ "-dns-lookup")%string
     reg1.
Proof.
  intros H. split; [exact (PublishExpvar_metrics _ _ _ _ H)|].
  revert H. unfold PublishExpvar.
  set (n := if String.eqb (Name c) "" then "thc"%string else Name c).
  destruct (Publish (n ++ "-dns-lookup") reg) as [r1|] eqn:E1; [|discriminate].
  cbn [obind].
  destruct (Publish (n ++ "-tcp-connection") r1) as [r2|] eqn:E2; [|discriminate].
  cbn [obind].
  destruct (Publish (n ++ "-tls-handshake") r2) as [r3|] eqn:E3; [|discriminate].
  cbn [obind].
  destruct (Publish (n ++ "-get-connection") r3) as [r4|] eqn:E4; [|discriminate].
  cbn [obind].
  destruct (Publish (n ++ "-write-request") r4) as [r5|] eqn:E5; [|discriminate].
  cbn [obind].
  destruct (Publish (n ++ "-get-response") r5) as [r6|] eqn:E6; [|discriminate].
  cbn [obind].
  destruct (Publish (n ++ "-outofservice") r6) as [r7|] eqn:E7; [|discriminate].
  cbn [obind]. intros H; inversion H; subst.
  apply (Publish_incl _ _ _ E7), (Publish_incl _ _ _ E6), (Publish_incl _ _ _ E5),
    (Publish_incl _ _ _ E4), (Publish_incl _ _ _ E3), (Publish_incl _ _ _ E2).
  exact (Publish_In _ _ _ E1).
Qed.

(** ** C7 *)

(** C7 (as stated, refuted): calling PublishExpvar a second time is not a
    no-op equal to the first call: the first call on a fresh registry
    succeeds, the second publishes [test-dns-lookup] again and expvar
    panics. *)
Lemma PublishExpvar_twice_panics :
  exists c1 reg1,
    PublishExpvar test_client [] = Some (c1, reg1) /\
    PublishExpvar c1 reg1 = None.
Proof.
  eexists; eexists. split; [vm_compute; reflexivity|vm_compute; reflexivity].
Qed.


(** * Further properties of the package *)

(** ** PublishExpvar: names and registry *)

(** The prefix PublishExpvar uses: the client's Name, or "thc". *)
Definition expvar_prefix (c : THC) : string :=
  if String.eqb (Name c) "" then "thc"%string else Name c.

Definition expvar_suffixes : list string :=
  ["-dns-lookup"; "-tcp-connection"; "-tls-handshake"; "-get-connection";
   "-write-request"; "-get-response"; "-outofservice"]%string.

Definition expvar_names (c : THC) : list string :=
  map (fun s => (expvar_prefix c ++ s)%string) expvar_suffixes.

Lemma append_inj_l (p s1 s2 : string) : (p ++ s1)%string = (p ++ s2)%string -> s1 = s2.
Proof.
  induction p as [|a p IH]; simpl; [auto|]. intros H; inversion H; auto.
Qed.

Lemma Publish_spec x r r' : Publish x r = Some r' -> ~ In x r /\ r' = r ++ [x].
Proof.
  unfold Publish. destruct (existsb (String.eqb x) r) eqn:E; [discriminate|].
  intros H; inversion H; subst. split; [|reflexivity].
  intros Hin. assert (Ht : existsb (String.eqb x) r = true).
  { apply existsb_exists. exists x. split; [exact Hin|apply String.eqb_refl]. }
  congruence.
Qed.

Lemma Publish_fresh x r : ~ In x r -> Publish x r = Some (r ++ [x]).
Proof.
  intros Hn. unfold Publish.
  destruct (existsb (String.eqb x) r) eqn:E; [|reflexivity].
  apply existsb_exists in E. destruct E as (y & Hy & Eq).
  apply String.eqb_eq in Eq. subst. contradiction.
Qed.

Lemma not_in_app {A} (x : A) l1 l2 : ~ In x l1 -> ~ In x l2 -> ~ In x (l1 ++ l2).
Proof. rewrite in_app_iff. tauto. Qed.

Ltac suffix_distinct :=
  let H := fresh in
  intros H; apply append_inj_l in H; discriminate H.

Lemma PublishExpvar_fresh c reg :
  (forall x, In x (expvar_names c) -> ~ In x reg) ->
  PublishExpvar c reg = Some (set_metrics c (Some new_metrics), reg ++ expvar_names c).
Proof.
  intros Hfree. unfold expvar_names, expvar_prefix in *.
  unfold PublishExpvar.
  set (n := if String.eqb (Name c) "" then "thc"%string else Name c) in *.
  simpl in Hfree.
  assert (F : forall s, In (n ++ s)%string
                          [n ++ "-dns-lookup"; n ++ "-tcp-connection";
                           n ++ "-tls-handshake"; n ++ "-get-connection";
                           n ++ "-write-request"; n ++ "-get-response";
                           n ++ "-outofservice"]%string ->
                   ~ In (n ++ s)%string reg) by (intros s Hs; apply Hfree; exact Hs).
  repeat match goal with
  | |- context [Publish (n ++ ?s)%string ?r] =>
      rewrite (Publish_fresh (n ++ s)%string r); [cbn [obind]|]
  end.
  { simpl. rewrite <- !app_assoc. reflexivity. }
  all: rewrite <- ?app_assoc; simpl;
    first [ apply F; simpl; tauto
          | apply not_in_app; [apply F; simpl; tauto|];
            let H := fresh in
            intros H; simpl in H;
            repeat (destruct H as [H|H]; [revert H; suffix_distinct|]); exact H ].
Qed.

Lemma PublishExpvar_names_free c reg c1 reg1 :
  PublishExpvar c reg = Some (c1, reg1) ->
  forall x, In x (expvar_names c) -> ~ In x reg.
Proof.
  unfold PublishExpvar, expvar_names, expvar_prefix.
  set (n := if String.eqb (Name c) "" then "thc"%string else Name c).
  destruct (Publish (n ++ "-dns-lookup") reg) as [r1|] eqn:E1; [|discriminate].
  cbn [obind].
  destruct (Publish (n ++ "-tcp-connection") r1) as [r2|] eqn:E2; [|discriminate].
  cbn [obind].
  destruct (Publish (n ++ "-tls-handshake") r2) as [r3|] eqn:E3; [|discriminate].
  cbn [obind].
  destruct (Publish (n ++ "-get-connection") r3) as [r4|] eqn:E4; [|discriminate].
  cbn [obind].
  destruct (Publish (n ++ "-write-request") r4) as [r5|] eqn:E5; [|discriminate].
  cbn [obind].
  destruct (Publish (n ++ "-get-response") r5) as [r6|] eqn:E6; [|discriminate].
  cbn [obind].
  destruct (Publish (n ++ "-outofservice") r6) as [r7|] eqn:E7; [|discriminate].
  intros _ x Hx Hreg.
  apply Publish_spec in E1, E2, E3, E4, E5, E6, E7.
  destruct E1 as [N1 ->], E2 as [N2 ->], E3 as [N3 ->], E4 as [N4 ->],
    E5 as [N5 ->], E6 as [N6 ->], E7 as [N7 _].
  simpl in Hx.
  repeat rewrite in_app_iff in *.
  destruct Hx as [<-|[<-|[<-|[<-|[<-|[<-|[<-|[]]]]]]]]; tauto.
Qed.

Lemma PublishExpvar_taken c reg x :
  In x (expvar_names c) -> In x reg -> PublishExpvar c reg = None.
Proof.
  intros Hx Hreg. destruct (PublishExpvar c reg) as [[c1 reg1]|] eqn:E; [|reflexivity].
  exfalso. exact (PublishExpvar_names_free _ _ _ _ E x Hx Hreg).
Qed.

Lemma PublishExpvar_result c reg c1 reg1 :
  PublishExpvar c reg = Some (c1, reg1) ->
  c1 = set_metrics c (Some new_metrics) /\ reg1 = reg ++ expvar_names c.
Proof.
  intros H. rewrite (PublishExpvar_fresh c reg (PublishExpvar_names_free _ _ _ _ H)) in H.
  inversion H; split; reflexivity.
Qed.

(** X1: when none of its seven names is registered yet, PublishExpvar
    succeeds: it appends exactly the seven names [<prefix>-dns-lookup], ...,
    [<prefix>-outofservice] to the registry, in that order, where the prefix
    is the client's Name or "thc" when Name is empty; the seven names are
    pairwise distinct, and the client gets seven fresh, empty counters. *)
Theorem PublishExpvar_fresh_registry c reg :
  (forall x, In x (expvar_names c) -> ~ In x reg) ->
  PublishExpvar c reg = Some (set_metrics c (Some new_metrics), reg ++ expvar_names c) /\
  NoDup (expvar_names c) /\
  expvar_prefix c = (if String.eqb (Name c) "" then "thc"%string else Name c).
Proof.
  intros Hfree. split; [exact (PublishExpvar_fresh c reg Hfree)|].
  split; [|reflexivity].
  unfold expvar_names, expvar_suffixes. simpl.
  repeat constructor; simpl;
    let H := fresh in
    intros H; repeat (destruct H as [H|H]; [revert H; suffix_distinct|]); exact H.
Qed.

Lemma PublishExpvar_fresh_registry_witness :
  (forall x, In x (expvar_names test_client) -> ~ In x ["other"%string]) /\
  PublishExpvar test_client ["other"%string] =
    Some (set_metrics test_client (Some new_metrics),
          ["other"%string] ++ expvar_names test_client).
Proof.
  assert (H : forall x, In x (expvar_names test_client) -> ~ In x ["other"%string]).
  { intros x Hx [Hy|[]]; subst. vm_compute in Hx.
    repeat (destruct Hx as [Hx|Hx]; [discriminate Hx|]); exact Hx. }
  split; [exact H|]. exact (proj1 (PublishExpvar_fresh_registry _ _ H)).
Defined.

(** X2: PublishExpvar panics (expvar refuses a name) exactly when one of
    the client's seven names is already in the registry. *)
Theorem PublishExpvar_panics_iff c reg :
  PublishExpvar c reg = None <-> exists x, In x (expvar_names c) /\ In x reg.
Proof.
  split.
  - intros H.
    destruct (existsb (fun x => existsb (String.eqb x) reg) (expvar_names c)) eqn:E.
    + apply existsb_exists in E. destruct E as (x & Hx & E).
      apply existsb_exists in E. destruct E as (y & Hy & Eq).
      apply String.eqb_eq in Eq; subst. exists y. split; assumption.
    + exfalso.
      assert (Hfree : forall x, In x (expvar_names c) -> ~ In x reg).
      { intros x Hx Hreg.
        assert (Ht : existsb (fun x => existsb (String.eqb x) reg) (expvar_names c) = true).
        { apply existsb_exists. exists x. split; [exact Hx|].
          apply existsb_exists. exists x. split; [exact Hreg|apply String.eqb_refl]. }
        congruence. }
      rewrite (PublishExpvar_fresh c reg Hfree) in H. discriminate.
  - intros (x & Hx & Hreg). exact (PublishExpvar_taken c reg x Hx Hreg).
Qed.

(** X3: two clients with the same expvar prefix cannot both be set up in
    one process: once one has published its names, setting up the other
    panics.  This includes an unnamed client and one named "thc". *)
Theorem PublishExpvar_same_prefix_panics c c' reg c1 reg1 :
  expvar_prefix c = expvar_prefix c' ->
  PublishExpvar c reg = Some (c1, reg1) -> PublishExpvar c' reg1 = None.
Proof.
  intros Hp H. destruct (PublishExpvar_result _ _ _ _ H) as [_ ->].
  apply (PublishExpvar_taken c' _ (expvar_prefix c' ++ "-dns-lookup")%string).
  - unfold expvar_names. simpl. left. reflexivity.
  - apply in_or_app. right. unfold expvar_names. rewrite Hp. simpl. left. reflexivity.
Qed.

Definition unnamed_client : THC := mkTHC None "" 0 0 0 None.
Definition thc_named_client : THC := mkTHC None "thc" 0 0 0 None.

Lemma PublishExpvar_same_prefix_panics_witness :
  expvar_prefix unnamed_client = expvar_prefix thc_named_client /\
  PublishExpvar unnamed_client [] =
    Some (set_metrics unnamed_client (Some new_metrics), expvar_names unnamed_client) /\
  PublishExpvar thc_named_client (expvar_names unnamed_client) = None.
Proof.
  assert (Hp : expvar_prefix unnamed_client = expvar_prefix thc_named_client)
    by reflexivity.
  assert (H : PublishExpvar unnamed_client [] =
              Some (set_metrics unnamed_client (Some new_metrics),
                    expvar_names unnamed_client)) by (vm_compute; reflexivity).
  split; [exact Hp|]. split; [exact H|].
  exact (PublishExpvar_same_prefix_panics _ _ _ _ _ Hp H).
Defined.

(** ** Do: lazy setup and defaults *)

(** The configuration fields of a THC value. *)
Definition config (c : THC) : option HttpClient * string * Z * Duration :=
  (Client c, Name c, MaxErrors c, HealingTime c).

Lemma advance_config d w : config (thc (advance d w)) = config (thc w).
Proof. unfold advance; simpl. destruct (existsb _ _); reflexivity. Qed.

Lemma client_do_config w c reg call w1 :
  client_do w c reg call = Some w1 -> config (thc w1) = config c.
Proof.
  unfold client_do. destruct (metrics c); [|discriminate].
  intros H; inversion H; subst. rewrite advance_config. reflexivity.
Qed.

Lemma breaker_update_config w1 o w2 :
  breaker_update w1 o = Some w2 -> config (thc w2) = config (thc w1).
Proof.
  destruct w1 as [[cl nm mx ht ec ms] reg tn tms cs].
  unfold breaker_update; simpl.
  destruct (0 <? mx); [|intros H; inversion H; reflexivity].
  destruct (is_failure o) as [[|]|]; simpl; [| |discriminate].
  - destruct (_ =? _); [destruct ms; [|discriminate]|];
      intros H; inversion H; reflexivity.
  - intros H; inversion H; reflexivity.
Qed.

Lemma set_defaults_config c reg c' reg' :
  set_defaults c reg = Some (c', reg') ->
  config c' = (Some (match Client c with None => DefaultClient | Some h => h end),
               Name c, MaxErrors c,
               if HealingTime c =? 0 then defaultHealingTime else HealingTime c).
Proof.
  destruct c as [cl nm mx ht ec ms]. unfold set_defaults; simpl.
  destruct cl; simpl; destruct (ht =? 0) eqn:Eh; simpl;
    destruct ms; simpl;
    intros H; try (inversion H; subst; unfold config; simpl; rewrite ?Eh; reflexivity);
    apply PublishExpvar_metrics in H; inversion H; subst;
    unfold config; simpl; rewrite ?Eh; reflexivity.
Qed.

Lemma set_defaults_unset c reg c' reg' :
  metrics c = None -> set_defaults c reg = Some (c', reg') ->
  reg' = reg ++ expvar_names c.
Proof.
  destruct c as [cl nm mx ht ec ms]; simpl; intros Hm; subst.
  unfold set_defaults; simpl.
  destruct cl; simpl; destruct (ht =? 0); simpl; intros H;
    destruct (PublishExpvar_result _ _ _ _ H) as [_ ->]; reflexivity.
Qed.

(** X4: the first request of a client on which PublishExpvar was never
    called (breaker closed, its seven names still free) runs the setup
    itself: it returns the client's result, publishes the seven names of
    the client, and leaves the client with counters installed. *)
Theorem Do_lazy_setup w call :
  breaker_open (thc w) = false -> metrics (thc w) = None ->
  (forall x, In x (expvar_names (thc w)) -> ~ In x (expvars w)) ->
  (0 < MaxErrors (thc w) -> is_failure (outcome call) <> None) ->
  exists w', Do w call = Some (w', returned (outcome call)) /\
    expvars w' = expvars w ++ expvar_names (thc w) /\ metrics (thc w') <> None.
Proof.
  intros Hb Hm Hfree Hf.
  assert (Hok : setup_ok w).
  { right. rewrite (PublishExpvar_fresh _ _ Hfree). discriminate. }
  destruct (Do_some w call Hb Hok Hf) as (w' & HDo).
  exists w'. split; [exact HDo|].
  destruct (Do_dispatch _ _ _ _ Hb HDo) as (c & reg & w1 & Hs & Hcd & Hu & _).
  destruct (set_defaults_spec _ _ _ _ Hs) as (_ & _ & Smet & _).
  destruct (client_do_spec _ _ _ _ _ Hcd) as (_ & _ & Cmet & _ & _ & Creg & _).
  destruct (breaker_update_spec _ _ _ Hu) as (_ & _ & _ & _ & Ureg & Umet & _).
  split; [rewrite Ureg, Creg; exact (set_defaults_unset _ _ _ _ Hm Hs)|].
  exact (Umet Cmet).
Qed.

Lemma Do_lazy_setup_witness :
  breaker_open (thc test_world) = false /\ metrics (thc test_world) = None /\
  exists w', Do test_world get500 = Some (w', returned (outcome get500)) /\
    expvars w' = expvars test_world ++ expvar_names (thc test_world) /\
    metrics (thc w') <> None.
Proof.
  split; [reflexivity|]. split; [reflexivity|].
  apply Do_lazy_setup; [reflexivity|reflexivity| |].
  - intros x _ [].
  - intros _. vm_compute. discriminate.
Defined.

(** X5: Do never changes a client's Name or MaxErrors.  A dispatched request
    fills in the defaults and keeps them: a nil Client becomes
    http.DefaultClient, a zero HealingTime becomes 10s, and a Client or
    HealingTime already set is kept.  A request that fails fast changes
    nothing. *)
Theorem Do_defaults w call w' r :
  Do w call = Some (w', r) ->
  Name (thc w') = Name (thc w) /\ MaxErrors (thc w') = MaxErrors (thc w) /\
  (breaker_open (thc w) = true -> config (thc w') = config (thc w)) /\
  (breaker_open (thc w) = false ->
     Client (thc w') =
       Some (match Client (thc w) with None => DefaultClient | Some h => h end) /\
     HealingTime (thc w') =
       (if HealingTime (thc w) =? 0 then defaultHealingTime else HealingTime (thc w))).
Proof.
  intros HDo. destruct (breaker_open (thc w)) eqn:Hb.
  - destruct (Do_open_same _ _ _ _ Hb HDo); subst.
    split; [reflexivity|]. split; [reflexivity|]. split; [reflexivity|discriminate].
  - destruct (Do_dispatch _ _ _ _ Hb HDo) as (c & reg & w1 & Hs & Hcd & Hu & _).
    pose proof (set_defaults_config _ _ _ _ Hs) as S.
    pose proof (client_do_config _ _ _ _ _ Hcd) as C.
    pose proof (breaker_update_config _ _ _ Hu) as U.
    rewrite C, S in U. unfold config in U. injection U as U1 U2 U3 U4.
    split; [exact U2|]. split; [exact U3|]. split; [discriminate|].
    intros _. split; [exact U1|exact U4].
Qed.

Definition custom_world : World :=
  mkWorld (mkTHC (Some (CustomClient 7)) "custom" 3 0 0 None) [] 0 [] 0.

Lemma Do_defaults_witness :
  exists w' r, Do custom_world get200 = Some (w', r) /\
    Client (thc w') = Some (CustomClient 7) /\
    HealingTime (thc w') = defaultHealingTime.
Proof.
  destruct (Do custom_world get200) as [[w' r]|] eqn:E;
    [|vm_compute in E; discriminate].
  exists w', r. split; [reflexivity|].
  destruct (Do_defaults _ _ _ _ E) as (_ & _ & _ & H).
  destruct (H ltac:(reflexivity)) as (H1 & H2).
  split; [exact H1|exact H2].
Defined.

(** ** Do: fail-fast accounting *)

Definition fail_fast_result (x : option Response * option error) : bool :=
  match snd x with Some ErrOutOfService => true | _ => false end.

Lemma returned_not_fail_fast o : fail_fast_result (returned o) = false.
Proof. unfold returned, fail_fast_result; simpl. destruct (err o); reflexivity. Qed.

Lemma Do_calls w call w' r :
  Do w call = Some (w', r) ->
  fail_fast_result r = breaker_open (thc w) /\
  calls w' = if fail_fast_result r then calls w else S (calls w).
Proof.
  intros HDo. destruct (breaker_open (thc w)) eqn:Hb.
  - destruct (Do_open_same _ _ _ _ Hb HDo); subst. split; reflexivity.
  - destruct (Do_dispatched_counter _ _ _ _ Hb HDo) as (Hr & Hc & _).
    subst r. rewrite returned_not_fail_fast. split; [reflexivity|exact Hc].
Qed.

(** X6: ErrOutOfService comes only from the fail-fast path: when Do returns
    it, the breaker was open, the response is nil and nothing changed. *)
Theorem Do_out_of_service_only_fail_fast w call w' r :
  Do w call = Some (w', (r, Some ErrOutOfService)) ->
  breaker_open (thc w) = true /\ w' = w /\ r = None.
Proof.
  intros HDo. destruct (breaker_open (thc w)) eqn:Hb.
  - destruct (Do_open_same _ _ _ _ Hb HDo) as [E1 E2].
    inversion E2; subst. split; [reflexivity|split; reflexivity].
  - destruct (Do_calls _ _ _ _ HDo) as [Hf _]. rewrite Hb in Hf. discriminate.
Qed.

Lemma Do_out_of_service_only_fail_fast_witness :
  Do open_world get200 = Some (open_world, (None, Some ErrOutOfService)) /\
  breaker_open (thc open_world) = true.
Proof.
  assert (H : Do open_world get200 = Some (open_world, (None, Some ErrOutOfService)))
    by reflexivity.
  split; [exact H|].
  exact (proj1 (Do_out_of_service_only_fail_fast _ _ _ _ H)).
Defined.

(** X7: over any run of requests and pauses, Do answers every request, and
    the underlying client is called exactly once per request that was not
    answered ErrOutOfService. *)
Theorem run_ops_calls w ops w' rs :
  run_ops w ops = Some (w', rs) ->
  List.length rs = List.length (client_calls ops) /\
  calls w' = (calls w + List.length (filter (fun x => negb (fail_fast_result x)) rs))%nat.
Proof.
  revert w w' rs. induction ops as [|op ops IH]; intros w w' rs Hrun.
  - simpl in Hrun. inversion Hrun; subst. simpl. split; [reflexivity|lia].
  - destruct op as [call|d].
    + destruct (run_ops_ODo _ _ _ _ _ Hrun) as (w1 & r & rs' & HDo & Hrest & ->).
      destruct (IH _ _ _ Hrest) as [L C].
      destruct (Do_calls _ _ _ _ HDo) as [_ C1].
      simpl. split; [rewrite L; reflexivity|].
      destruct (fail_fast_result r); simpl; rewrite C, C1; lia.
    + simpl in Hrun. destruct (IH _ _ _ Hrun) as [L C].
      split; [exact L|]. rewrite C. reflexivity.
Qed.

Lemma run_ops_calls_witness :
  run_ops test_world c6_ops = Some (c6_final, c6_results) /\
  calls c6_final = 3%nat.
Proof.
  assert (H : run_ops test_world c6_ops = Some (c6_final, c6_results))
    by (vm_compute; reflexivity).
  split; [exact H|].
  rewrite (proj2 (run_ops_calls _ _ _ _ H)). vm_compute. reflexivity.
Defined.

(** X8: a dispatched request with MaxErrors > 0 records an out-of-service
    sample (the value 1) and schedules a cooldown, HealingTime after it
    returns, exactly when it leaves the counter at MaxErrors; otherwise it
    records no sample and schedules nothing.  In both cases the cooldowns
    due during the call have run and been removed. *)
Theorem Do_sample_iff_cooldown w call w' r :
  breaker_open (thc w) = false -> 0 < MaxErrors (thc w) ->
  Do w call = Some (w', r) ->
  let due_removed := filter (fun dl => negb (dl <=? now w')) (timers w) in
  (errorCounter (thc w') = MaxErrors (thc w') ->
     timers w' = due_removed ++ [now w' + HealingTime (thc w')] /\
     oos (thc w') = oos (thc w) ++ [1]) /\
  (errorCounter (thc w') <> MaxErrors (thc w') ->
     timers w' = due_removed /\ oos (thc w') = oos (thc w)).
Proof.
  intros Hb Hpos HDo due_removed. subst due_removed.
  destruct (Do_dispatch _ _ _ _ Hb HDo) as (c & reg & w1 & Hs & Hcd & Hu & _).
  destruct (set_defaults_spec _ _ _ _ Hs) as (Sm & _ & _ & Soos & _).
  destruct (client_do_spec _ _ _ _ _ Hcd)
    as (Cm & _ & _ & Coos & _ & _ & Cnow & Ctim & _).
  destruct (breaker_update_spec _ _ _ Hu)
    as (Um & Uh & _ & Unow & _ & _ & _ & Uon).
  rewrite Unow, Cnow.
  destruct (Uon ltac:(lia)) as [(_ & Ue & Une & Ueq)|(_ & Ue & T & O)].
  - split.
    + intros Hopen. destruct (Ueq ltac:(congruence)) as [T O].
      rewrite T, O, Ctim, Coos, Soos, Uh, Cnow. split; reflexivity.
    + intros Hne. destruct (Une ltac:(congruence)) as [T O].
      rewrite T, O, Ctim, Coos, Soos. split; reflexivity.
  - split.
    + intros Hopen. exfalso. lia.
    + intros _. rewrite T, O, Ctim, Coos, Soos. split; reflexivity.
Qed.

Lemma Do_sample_iff_cooldown_witness :
  breaker_open (thc scen_w_r1) = false /\
  Do scen_w_r1 get500 = Some (scen_w_r2, returned resp500) /\
  oos (thc scen_w_r2) = oos (thc scen_w_r1) ++ [1].
Proof.
  assert (Hb : breaker_open (thc scen_w_r1) = false) by reflexivity.
  assert (H : Do scen_w_r1 get500 = Some (scen_w_r2, returned resp500))
    by (vm_compute; reflexivity).
  split; [exact Hb|]. split; [exact H|].
  exact (proj2 (proj1 (Do_sample_iff_cooldown _ _ _ _ Hb ltac:(reflexivity) H)
                  ltac:(reflexivity))).
Defined.

(** X9: a MaxErrors of 0 or below switches the breaker off: Do calls the
    client and returns its result whatever the counter holds, records no
    out-of-service sample, schedules no cooldown, and leaves the counter as
    it was unless a cooldown fell due during the call, in which case it is
    0. *)
Theorem Do_breaker_off w call w' r :
  MaxErrors (thc w) <= 0 -> Do w call = Some (w', r) ->
  breaker_open (thc w) = false /\
  r = returned (outcome call) /\ calls w' = S (calls w) /\
  oos (thc w') = oos (thc w) /\
  timers w' = filter (fun dl => negb (dl <=? now w')) (timers w) /\
  errorCounter (thc w') =
    (if existsb (fun dl => dl <=? now w') (timers w) then 0 else errorCounter (thc w)).
Proof.
  intros Hle HDo.
  assert (Hb : breaker_open (thc w) = false).
  { unfold breaker_open. destruct (Z.ltb_spec 0 (MaxErrors (thc w))); [lia|reflexivity]. }
  destruct (Do_dispatch _ _ _ _ Hb HDo) as (c & reg & w1 & Hs & Hcd & Hu & Hr).
  destruct (set_defaults_spec _ _ _ _ Hs) as (Sm & Se & _ & Soos & _).
  destruct (client_do_spec _ _ _ _ _ Hcd)
    as (Cm & _ & _ & Coos & Ccalls & _ & Cnow & Ctim & Ce).
  destruct (breaker_update_spec _ _ _ Hu) as (_ & _ & _ & _ & _ & _ & Uoff & _).
  rewrite (Uoff ltac:(lia)) in *.
  split; [exact Hb|]. split; [exact Hr|]. split; [exact Ccalls|].
  split; [congruence|]. split; [rewrite Ctim, Cnow; reflexivity|].
  rewrite Ce, Cnow, Se. reflexivity.
Qed.

Definition negative_world : World :=
  mkWorld (mkTHC None "neg" (-1) 0 5 None) [] 0 [] 0.

Lemma Do_breaker_off_witness :
  exists w' r, Do negative_world get500 = Some (w', r) /\
    r = returned (outcome get500) /\ calls w' = 1%nat.
Proof.
  destruct (Do negative_world get500) as [[w' r]|] eqn:E;
    [|vm_compute in E; discriminate].
  exists w', r. split; [reflexivity|].
  destruct (Do_breaker_off negative_world get500 w' r ltac:(unfold negative_world; simpl; lia) E) as (_ & Hr & Hc & _).
  split; [exact Hr|exact Hc].
Defined.

(** ** Runs: the expvar names are published at most once *)

Lemma expvar_names_Name c c' : Name c = Name c' -> expvar_names c = expvar_names c'.
Proof. intros H. unfold expvar_names, expvar_prefix. rewrite H. reflexivity. Qed.

Lemma config_Name c : Name c = snd (fst (fst (config c))).
Proof. reflexivity. Qed.

Lemma Do_expvars w call w' r :
  Do w call = Some (w', r) ->
  Name (thc w') = Name (thc w) /\
  (metrics (thc w) <> None -> metrics (thc w') <> None /\ expvars w' = expvars w) /\
  (metrics (thc w) = None ->
     (metrics (thc w') = None /\ expvars w' = expvars w) \/
     (metrics (thc w') <> None /\ expvars w' = expvars w ++ expvar_names (thc w))).
Proof.
  intros HDo. destruct (breaker_open (thc w)) eqn:Hb.
  - destruct (Do_open_same _ _ _ _ Hb HDo) as [-> _].
    split; [reflexivity|]. split; [intros H; split; [exact H|reflexivity]|].
    intros H; left; split; [exact H|reflexivity].
  - destruct (Do_dispatch _ _ _ _ Hb HDo) as (c & reg & w1 & Hs & Hcd & Hu & _).
    pose proof (set_defaults_config _ _ _ _ Hs) as Sc.
    destruct (set_defaults_spec _ _ _ _ Hs) as (_ & _ & Sm & _ & _ & _ & Sreg).
    pose proof (client_do_config _ _ _ _ _ Hcd) as Cc.
    destruct (client_do_spec _ _ _ _ _ Hcd) as (_ & _ & Cm & _ & _ & Creg & _).
    pose proof (breaker_update_config _ _ _ Hu) as Uc.
    destruct (breaker_update_spec _ _ _ Hu) as (_ & _ & _ & _ & Ureg & Um & _).
    split.
    { rewrite config_Name, Uc, Cc, Sc. reflexivity. }
    split.
    + intros Hm. destruct (Sreg Hm) as [-> _].
      split; [exact (Um Cm)|congruence].
    + intros Hm. right. split; [exact (Um Cm)|].
      rewrite Ureg, Creg. exact (set_defaults_unset _ _ _ _ Hm Hs).
Qed.

Lemma run_ops_expvars ops : forall w w' rs,
  run_ops w ops = Some (w', rs) ->
  Name (thc w') = Name (thc w) /\
  (metrics (thc w) <> None -> metrics (thc w') <> None /\ expvars w' = expvars w) /\
  (metrics (thc w) = None ->
     (metrics (thc w') = None /\ expvars w' = expvars w) \/
     (metrics (thc w') <> None /\ expvars w' = expvars w ++ expvar_names (thc w))).
Proof.
  induction ops as [|op ops IH]; intros w w' rs Hrun.
  - simpl in Hrun. inversion Hrun; subst.
    split; [reflexivity|]. split; [intros H; split; [exact H|reflexivity]|].
    intros H; left; split; [exact H|reflexivity].
  - destruct op as [call|d].
    + destruct (run_ops_ODo _ _ _ _ _ Hrun) as (w1 & r & rs' & HDo & Hrest & _).
      destruct (Do_expvars _ _ _ _ HDo) as (N1 & S1 & U1).
      destruct (IH _ _ _ Hrest) as (N2 & S2 & U2).
      split; [congruence|]. split.
      * intros Hm. destruct (S1 Hm) as [Hm1 E1]. destruct (S2 Hm1) as [Hm2 E2].
        split; [exact Hm2|congruence].
      * intros Hm. destruct (U1 Hm) as [[Hm1 E1]|[Hm1 E1]].
        -- destruct (U2 Hm1) as [[Hm2 E2]|[Hm2 E2]].
           ++ left. split; [exact Hm2|congruence].
           ++ right. split; [exact Hm2|].
              rewrite E2, E1, (expvar_names_Name _ _ N1). reflexivity.
        -- destruct (S2 Hm1) as [Hm2 E2]. right. split; [exact Hm2|congruence].
    + simpl in Hrun. destruct (IH _ _ _ Hrun) as (N2 & S2 & U2).
      destruct (advance_thc_fields d w) as (_ & _ & Am & _).
      destruct (advance_world_fields d w) as (Ae & _).
      assert (An : Name (thc (advance d w)) = Name (thc w)).
      { rewrite !config_Name, advance_config. reflexivity. }
      rewrite Am, Ae, An in *. split; [exact N2|]. split; [exact S2|].
      intros Hm. destruct (U2 Hm) as [[Hm2 E2]|[Hm2 E2]]; [left|right];
        (split; [exact Hm2|]); rewrite E2; [reflexivity|].
      rewrite (expvar_names_Name _ _ An). reflexivity.
Qed.

(** X10: however many requests and pauses a client goes through, Do
    publishes the client's seven expvar names at most once: a client whose
    counters are installed never touches the registry again, and one
    without counters ends with the registry either unchanged or extended by
    exactly its seven names. *)
Theorem run_ops_publish_at_most_once w ops w' rs :
  run_ops w ops = Some (w', rs) ->
  (metrics (thc w) <> None -> expvars w' = expvars w) /\
  (expvars w' = expvars w \/ expvars w' = expvars w ++ expvar_names (thc w)).
Proof.
  intros Hrun. destruct (run_ops_expvars _ _ _ _ Hrun) as (_ & S & U).
  destruct (metrics (thc w)) as [m|] eqn:Em.
  - assert (Hm : Some m <> None) by discriminate.
    destruct (S Hm) as [_ E]. split; [intros _; exact E|left; exact E].
  - split; [intros H; exfalso; apply H; reflexivity|].
    destruct (U eq_refl) as [[_ E]|[_ E]]; [left|right]; exact E.
Qed.

Lemma run_ops_publish_at_most_once_witness :
  run_ops test_world c6_ops = Some (c6_final, c6_results) /\
  expvars c6_final = expvars test_world ++ expvar_names (thc test_world).
Proof.
  assert (H : run_ops test_world c6_ops = Some (c6_final, c6_results))
    by (vm_compute; reflexivity).
  split; [exact H|].
  destruct (proj2 (run_ops_publish_at_most_once _ _ _ _ H)) as [E|E];
    [vm_compute in E; discriminate|exact E].
Defined.

(** ** withTracing: which hook records what *)

Definition HookEvent_eq_dec : forall x y : HookEvent, {x = y} + {x <> y}.
Proof. decide equality. Defined.

Definition hook_count (ev : HookEvent) (evs : list (Time * HookEvent)) : nat :=
  count_occ HookEvent_eq_dec (map snd evs) ev.

(** X11: over any sequence of hook firings, each of the six timing
    counters gets exactly one sample per firing of its own completion hook
    (DNSDone, ConnectDone, TLSHandshakeDone, GotConn, WroteRequest,
    GotFirstResponseByte); GetConn and the start hooks record nothing, and
    the OutOfService counter is never touched by the tracer. *)
Theorem run_hooks_sample_counts evs : forall tv m,
  let m' := snd (run_hooks tv m evs) in
  List.length (DNSLookup m') = (List.length (DNSLookup m) + hook_count DNSDone evs)%nat /\
  List.length (TCPConnection m') =
    (List.length (TCPConnection m) + hook_count ConnectDone evs)%nat /\
  List.length (TLSHandshake m') =
    (List.length (TLSHandshake m) + hook_count TLSHandshakeDone evs)%nat /\
  List.length (GetConnection m') =
    (List.length (GetConnection m) + hook_count GotConn evs)%nat /\
  List.length (WriteRequest m') =
    (List.length (WriteRequest m) + hook_count WroteRequest evs)%nat /\
  List.length (GetResponse m') =
    (List.length (GetResponse m) + hook_count GotFirstResponseByte evs)%nat /\
  OutOfService m' = OutOfService m.
Proof.
  cbv zeta. unfold hook_count.
  induction evs as [|[t ev] evs IH]; intros tv m.
  - simpl. repeat split; lia.
  - rewrite run_hooks_cons.
    destruct tv as [a d tc tl], m as [dns tcp tls gc wr gr oo].
    destruct ev; simpl;
      match goal with
      | |- context [run_hooks ?tv' ?m'' evs] =>
          destruct (IH tv' m'') as (E1 & E2 & E3 & E4 & E5 & E6 & E7)
      end;
      rewrite E1, E2, E3, E4, E5, E6, E7; unfold Incr; simpl;
      rewrite ?length_app; simpl; repeat split; lia.
Qed.

(** ** withTracing: the dial phases share one start variable each *)

Inductive DialPhase := PhaseDNS | PhaseTCP | PhaseTLS.

Definition phase_start (p : DialPhase) : HookEvent :=
  match p with
  | PhaseDNS => DNSStart | PhaseTCP => ConnectStart | PhaseTLS => TLSHandshakeStart
  end.

Definition phase_done (p : DialPhase) : HookEvent :=
  match p with
  | PhaseDNS => DNSDone | PhaseTCP => ConnectDone | PhaseTLS => TLSHandshakeDone
  end.

Definition phase_counter (p : DialPhase) (m : Metrics) : AvgRateCounter :=
  match p with
  | PhaseDNS => DNSLookup m | PhaseTCP => TCPConnection m | PhaseTLS => TLSHandshake m
  end.

Definition phase_var (p : DialPhase) (tv : TraceVars) : Time :=
  match p with
  | PhaseDNS => dnsStart tv | PhaseTCP => tcpStart tv | PhaseTLS => tlsStart tv
  end.

Lemma hook_phase_other p tv m t ev :
  ev <> phase_start p -> phase_var p (fst (hook tv m t ev)) = phase_var p tv.
Proof. destruct p, tv, m, ev; simpl; congruence. Qed.

Lemma hook_phase_start p tv m t :
  phase_var p (fst (hook tv m t (phase_start p))) = t.
Proof. destruct p, tv, m; reflexivity. Qed.

Lemma hook_phase_done p tv m t :
  phase_counter p (snd (hook tv m t (phase_done p))) =
  phase_counter p m ++ [Sub t (phase_var p tv)].
Proof. destruct p, tv, m; reflexivity. Qed.

Lemma run_hooks_phase_var p evs : forall tv m,
  Forall (fun e => snd e <> phase_start p) evs ->
  phase_var p (fst (run_hooks tv m evs)) = phase_var p tv.
Proof.
  induction evs as [|[t ev] evs IH]; intros tv m H; [reflexivity|].
  inversion H as [|? ? Hev Hr]; subst; simpl in Hev.
  rewrite run_hooks_cons.
  pose proof (hook_phase_other p tv m t ev Hev) as Ho.
  destruct (hook tv m t ev) as [tv' m']. simpl in Ho.
  rewrite IH by exact Hr. exact Ho.
Qed.

(** X12: a DNSDone, ConnectDone or TLSHandshakeDone appends to its counter
    the time since the most recent matching start hook of the trace, not
    since the start of its own attempt: whatever came before, and whatever
    hooks of other kinds or earlier completions came in between, the sample
    is [Sub td ts] for the last start at [ts].  With two dial attempts in
    flight (a second ConnectStart before the first ConnectDone) the first
    completion is therefore measured from the second start. *)
Theorem dial_sample_from_latest_start p tv m pre ts mid td :
  Forall (fun e => snd e <> phase_start p) mid ->
  phase_counter p
    (snd (run_hooks tv m (pre ++ (ts, phase_start p) :: mid ++ [(td, phase_done p)]))) =
  phase_counter p (snd (run_hooks tv m (pre ++ (ts, phase_start p) :: mid)))
    ++ [Sub td ts].
Proof.
  intros Hmid.
  replace (pre ++ (ts, phase_start p) :: mid ++ [(td, phase_done p)])
    with ((pre ++ (ts, phase_start p) :: mid) ++ [(td, phase_done p)])
    by (rewrite <- app_assoc; reflexivity).
  assert (Hv : phase_var p (fst (run_hooks tv m (pre ++ (ts, phase_start p) :: mid))) = ts).
  { rewrite run_hooks_app. destruct (run_hooks tv m pre) as [tv1 m1].
    rewrite run_hooks_cons. pose proof (hook_phase_start p tv1 m1 ts) as Hs.
    destruct (hook tv1 m1 ts (phase_start p)) as [tv2 m2]. simpl in Hs.
    rewrite run_hooks_phase_var by exact Hmid. exact Hs. }
  rewrite run_hooks_app.
  destruct (run_hooks tv m (pre ++ (ts, phase_start p) :: mid)) as [tv3 m3].
  simpl in Hv. rewrite run_hooks_cons.
  pose proof (hook_phase_done p tv3 m3 td) as Hd.
  destruct (hook tv3 m3 td (phase_done p)) as [tv4 m4]. simpl in Hd |- *.
  rewrite Hd, Hv. reflexivity.
Qed.

(** Two connection attempts: ConnectStart at 1 and 3, the first
    ConnectDone at 5 records 2. *)
Lemma dial_sample_from_latest_start_witness :
  Forall (fun e => snd e <> phase_start PhaseTCP) ([] : list (Time * HookEvent)) /\
  TCPConnection (snd (run_hooks trace_init new_metrics
                        [(1, ConnectStart); (3, ConnectStart); (5, ConnectDone)])) = [2].
Proof.
  assert (HF : Forall (fun e => snd e <> phase_start PhaseTCP) ([] : list (Time * HookEvent)))
    by constructor.
  split; [exact HF|].
  pose proof (dial_sample_from_latest_start PhaseTCP trace_init new_metrics
                [(1, ConnectStart)] 3 [] 5 HF) as H.
  simpl in H. exact H.
Defined.

(** ** Counters only grow once installed *)

Definition prefix_of (a b : list Z) : Prop := exists l, b = a ++ l.

(** Each of the seven counters of [m'] is the matching counter of [m] with
    samples appended. *)
Definition counters_extend (m m' : Metrics) : Prop :=
  prefix_of (DNSLookup m) (DNSLookup m') /\
  prefix_of (TCPConnection m) (TCPConnection m') /\
  prefix_of (TLSHandshake m) (TLSHandshake m') /\
  prefix_of (GetConnection m) (GetConnection m') /\
  prefix_of (WriteRequest m) (WriteRequest m') /\
  prefix_of (GetResponse m) (GetResponse m') /\
  prefix_of (OutOfService m) (OutOfService m').

Lemma prefix_of_refl a : prefix_of a a.
Proof. exists []. rewrite app_nil_r. reflexivity. Qed.

Lemma prefix_of_Incr a v : prefix_of a (Incr a v).
Proof. exists [v]. reflexivity. Qed.

Lemma prefix_of_trans a b c : prefix_of a b -> prefix_of b c -> prefix_of a c.
Proof.
  intros [l1 ->] [l2 ->]. exists (l1 ++ l2). rewrite app_assoc. reflexivity.
Qed.

Lemma counters_extend_refl m : counters_extend m m.
Proof. repeat split; apply prefix_of_refl. Qed.

Lemma counters_extend_trans m1 m2 m3 :
  counters_extend m1 m2 -> counters_extend m2 m3 -> counters_extend m1 m3.
Proof.
  intros (A1 & B1 & C1 & D1 & E1 & F1 & G1) (A2 & B2 & C2 & D2 & E2 & F2 & G2).
  repeat split; eapply prefix_of_trans; eassumption.
Qed.

Lemma hook_extends tv m t ev : counters_extend m (snd (hook tv m t ev)).
Proof.
  destruct tv, m, ev; unfold counters_extend; simpl;
    repeat split; first [apply prefix_of_refl | apply prefix_of_Incr].
Qed.

Lemma run_hooks_extends evs : forall tv m, counters_extend m (snd (run_hooks tv m evs)).
Proof.
  induction evs as [|[t ev] evs IH]; intros tv m; [apply counters_extend_refl|].
  rewrite run_hooks_cons. pose proof (hook_extends tv m t ev) as H.
  destruct (hook tv m t ev) as [tv' m']. simpl in H.
  exact (counters_extend_trans _ _ _ H (IH tv' m')).
Qed.

Lemma client_do_extends w c reg call w1 m :
  metrics c = Some m -> client_do w c reg call = Some w1 ->
  exists m', metrics (thc w1) = Some m' /\ counters_extend m m'.
Proof.
  unfold client_do. intros Hm. rewrite Hm. intros H; inversion H; subst; clear H.
  unfold advance; simpl. eexists. split.
  - destruct (existsb _ _); reflexivity.
  - apply run_hooks_extends.
Qed.

Lemma breaker_update_extends w1 o w2 m :
  metrics (thc w1) = Some m -> breaker_update w1 o = Some w2 ->
  exists m', metrics (thc w2) = Some m' /\ counters_extend m m'.
Proof.
  destruct w1 as [[cl nm mx ht ec ms] reg tn tms cs].
  unfold breaker_update; simpl. intros Hm; subst ms.
  destruct (0 <? mx);
    [|intros H; inversion H; subst; eexists; split; [reflexivity|apply counters_extend_refl]].
  destruct (is_failure o) as [[|]|]; simpl; [| |discriminate].
  - destruct (_ =? _); intros H; inversion H; subst; eexists;
      (split; [reflexivity|]); [|apply counters_extend_refl].
    destruct m; unfold counters_extend; simpl;
      repeat split; first [apply prefix_of_refl | apply prefix_of_Incr].
  - intros H; inversion H; subst; eexists; split; [reflexivity|apply counters_extend_refl].
Qed.

Lemma Do_extends w call w' r m :
  metrics (thc w) = Some m -> Do w call = Some (w', r) ->
  expvars w' = expvars w /\
  exists m', metrics (thc w') = Some m' /\ counters_extend m m'.
Proof.
  intros Hm HDo. destruct (breaker_open (thc w)) eqn:Hb.
  - destruct (Do_open_same _ _ _ _ Hb HDo) as [-> _].
    split; [reflexivity|]. exists m. split; [exact Hm|apply counters_extend_refl].
  - destruct (Do_dispatch _ _ _ _ Hb HDo) as (c & reg & w1 & Hs & Hcd & Hu & _).
    destruct (set_defaults_spec _ _ _ _ Hs) as (_ & _ & _ & _ & _ & _ & Sreg).
    destruct (Sreg ltac:(rewrite Hm; discriminate)) as [Hreg Hmc].
    destruct (client_do_spec _ _ _ _ _ Hcd) as (_ & _ & _ & _ & _ & Creg & _).
    destruct (breaker_update_spec _ _ _ Hu) as (_ & _ & _ & _ & Ureg & _).
    split; [congruence|].
    rewrite Hm in Hmc.
    destruct (client_do_extends _ _ _ _ _ _ Hmc Hcd) as (m1 & Hm1 & E1).
    destruct (breaker_update_extends _ _ _ _ Hm1 Hu) as (m2 & Hm2 & E2).
    exists m2. split; [exact Hm2|exact (counters_extend_trans _ _ _ E1 E2)].
Qed.

(** ** C7 (amended) *)

(** C7 (amended): PublishExpvar is not idempotent.  Every call installs
    seven fresh, empty counters and publishes the seven name-prefixed
    series, so calling it again after it succeeded re-publishes names
    already registered and expvar panics.  The request path only calls it
    while the counters are unset: once setup has run, Do leaves the
    registry alone and each of the seven counters only gets samples
    appended to it. *)
Theorem setup_not_idempotent c reg c1 reg1 :
  PublishExpvar c reg = Some (c1, reg1) ->
  metrics c1 = Some new_metrics /\ reg1 = reg ++ expvar_names c /\
  PublishExpvar c1 reg1 = None /\
  (forall w call w' r m, metrics (thc w) = Some m -> Do w call = Some (w', r) ->
     expvars w' = expvars w /\
     exists m', metrics (thc w') = Some m' /\ counters_extend m m').
Proof.
  intros H.
  destruct (PublishExpvar_registers _ _ _ _ H) as (Hc1 & Hin).
  split; [rewrite Hc1; reflexivity|].
  split; [exact (proj2 (PublishExpvar_result _ _ _ _ H))|].
  split.
  - unfold PublishExpvar at 1. rewrite Hc1. simpl Name.
    rewrite (Publish_again _ _ Hin). reflexivity.
  - intros w call w' r m Hm HDo. exact (Do_extends _ _ _ _ _ Hm HDo).
Qed.

Definition published_client : THC :=
  Eval vm_compute in
    match PublishExpvar test_client [] with Some (c, _) => c | None => test_client end.
Definition published_reg : list string :=
  Eval vm_compute in
    match PublishExpvar test_client [] with Some (_, r) => r | None => [] end.

Lemma setup_not_idempotent_witness :
  PublishExpvar test_client [] = Some (published_client, published_reg) /\
  published_reg = expvar_names test_client /\
  PublishExpvar published_client published_reg = None.
Proof.
  assert (H : PublishExpvar test_client [] = Some (published_client, published_reg))
    by (vm_compute; reflexivity).
  split; [exact H|].
  destruct (setup_not_idempotent _ _ _ _ H) as (_ & Hreg & Hnone & _).
  split; [exact Hreg|exact Hnone].
Defined.
